(** * sickfits-backend: the GraphQL resolvers of the shop, verified

    The resolvers of [Mutation.js] and [Query.js] are asynchronous
    JavaScript functions that talk to three collaborators: the Prisma
    store ([ctx.db]), the Stripe gateway and the mail transport.  They are
    embedded here as programs over the operations they [await]; a handler
    gives the operations their meaning on an explicit store, and the run
    of a program records every operation it performed. *)

From Stdlib Require Import List String Ascii ZArith Bool Lia.
Import ListNotations.
Open Scope string_scope.
Open Scope Z_scope.

(** ** Data model (the nodes of the store, as the resolvers read them)

    Prices, quantities, amounts and timestamps are JavaScript numbers that
    hold integers; they are [Z] here.  Quantities (32-bit [Int] fields of
    the store) and timestamps in milliseconds stay far below 2^53, where a
    sum or difference with a constant is exact; the products and the
    running sum of [createOrder] can pass 2^53 and are rounded as doubles
    are ([round53] below). *)

Definition ID := string.

Record User := mkUser {
  user_id : ID;
  user_name : string;
  user_email : string;
  user_password : string;
  user_permissions : list string;
  user_resetToken : option string;
  user_resetTokenExpiry : option Z
}.

Record Item := mkItem {
  item_id : ID;
  item_title : string;
  item_description : string;
  item_image : string;
  item_largeImage : string;
  item_price : Z;
  item_user : ID
}.

Record CartItem := mkCartItem {
  cart_id : ID;
  cart_quantity : Z;
  cart_item : ID;
  cart_user : ID
}.

Record OrderItem := mkOrderItem {
  oi_title : string;
  oi_description : string;
  oi_image : string;
  oi_largeImage : string;
  oi_price : Z;
  oi_quantity : Z;
  oi_user : ID
}.

Record Order := mkOrder {
  order_id : ID;
  order_items : list OrderItem;
  order_total : Z;
  order_user : ID;
  order_charge : string
}.

(** What [stripe.charges.create] resolves to: the fields the code reads. *)
Record Charge := mkCharge {
  charge_id : string;
  charge_amount : Z
}.

(** One entry of [user.cart] as [createOrder] selects it:
    [cart { id quantity item { title price id description image largeImage } }].
    The [item] relation of a cart item is optional in the store. *)
Record CartLine := mkCartLine {
  line_id : ID;
  line_quantity : Z;
  line_item : option Item
}.

Record Store := mkStore {
  users : list User;
  items : list Item;
  cartItems : list CartItem;
  orders : list Order
}.

(** [info]: of the selection set of the client's operation, the fields a
    resolver reads back from a node it fetched with [info]: [id]
    ([signup]), [permissions] ([updatePermissions]), [user] and the [id]
    under it ([order]).  A field that is not selected is [undefined] on
    the node the store returns. *)
Record Info := mkInfo {
  selects_id : bool;
  selects_permissions : bool;
  selects_user : bool;
  selects_user_id : bool
}.

Definition selects_everything : Info := mkInfo true true true true.

(** What a resolver is called with besides its arguments.  [ctx.request]:
    the session middleware sets [userId] from the cookie and [user] from
    the store; both are [undefined] without a session.  [info]: the
    selection set, the resolver's fourth parameter. *)
Record Request := mkRequest {
  userId : option ID;
  user : option User;
  info : Info
}.

(** What a resolver can throw. [Error] is [throw new Error(message)];
    [TypeError] is a property read on [null] or [undefined]; the other
    three are rejections of the collaborators. *)
Inductive Exn :=
| Error (message : string)
| TypeError
| StoreError
| GatewayError (message : string)
| MailError.

(** ** Arguments of the mutations *)

Record ItemArgs := mkItemArgs {
  arg_title : string;
  arg_description : string;
  arg_price : Z;
  arg_image : string;
  arg_largeImage : string
}.

(** [updates] of [updateItem]: the fields of [args] other than [id]; a
    field that is absent is left alone. *)
Record ItemUpdates := mkItemUpdates {
  upd_title : option string;
  upd_description : option string;
  upd_price : option Z
}.

Record SignupArgs := mkSignupArgs {
  su_email : string;
  su_name : string;
  su_password : string
}.

Record ResetArgs := mkResetArgs {
  ra_resetToken : string;
  ra_password : string;
  ra_confirmPassword : string
}.

(** [data] of [db.mutation.updateUser]: [None] is a field not mentioned,
    [Some None] is a field set to [null]. *)
Record UserData := mkUserData {
  data_password : option string;
  data_resetToken : option (option string);
  data_resetTokenExpiry : option (option Z);
  data_permissions : option (list string)
}.

Inductive UserWhere :=
| where_id (id : ID)
| where_email (email : string).

(** ** The operations a resolver awaits *)

Inductive Op : Type -> Type :=
| db_query_user (w : UserWhere) : Op (option User)
| db_query_user_cart (id : ID) : Op (option (User * list CartLine))
| db_query_users : Op (list User)
| db_query_users_reset (resetToken : string) (resetTokenExpiry_gte : Z) : Op (list User)
| db_query_item (id : ID) : Op (option Item)
| db_query_cartItem (id : ID) : Op (option CartItem)
| db_query_cartItems (user_id item_id : ID) : Op (list CartItem)
| db_query_order (id : ID) : Op (option Order)
| db_query_orders (user_id : ID) : Op (list Order)
| db_mutation_createItem (owner : ID) (args : ItemArgs) : Op Item
| db_mutation_updateItem (id : ID) (data : ItemUpdates) : Op Item
| db_mutation_deleteItem (id : ID) : Op Item
| db_mutation_createUser (args : SignupArgs) (permissions : list string) : Op User
| db_mutation_updateUser (w : UserWhere) (data : UserData) : Op User
| db_mutation_updateCartItem (id : ID) (quantity : Z) : Op CartItem
| db_mutation_createCartItem (user_id item_id : ID) : Op CartItem
| db_mutation_deleteCartItem (id : ID) : Op CartItem
| db_mutation_createOrder (total : Z) (charge : string) (create : list OrderItem) (user_id : ID) : Op Order
| db_mutation_deleteManyCartItems (id_in : list ID) : Op Z
| stripe_charges_create (amount : Z) (currency : string) (source : string) : Op Charge
| bcrypt_hash (plain : string) (rounds : Z) : Op string
| randomBytes_hex (n : Z) : Op string
| Date_now : Op Z
| transport_sendMail (from to subject html : string) : Op unit
| jwt_sign (payload_userId : ID) (secret : string) : Op string
| jwt_sign_undefined (secret : string) : Op string
| res_cookie (name value : string) (httpOnly : bool) (maxAge : Z) : Op unit.

Inductive Prog (A : Type) : Type :=
| Ret (a : A)
| Throw (e : Exn)
| Vis {X : Type} (o : Op X) (k : X -> Prog A).

Arguments Ret {A} a.
Arguments Throw {A} e.
Arguments Vis {A X} o k.

Fixpoint bind {A B : Type} (p : Prog A) (f : A -> Prog B) : Prog B :=
  match p with
  | Ret a => f a
  | Throw e => Throw e
  | Vis o k => Vis o (fun x => bind (k x) f)
  end.

Declare Scope prog_scope.
Delimit Scope prog_scope with prog.
Notation "'await' x <- o ;; k" := (Vis o (fun x => k))
  (at level 10, x name, o at level 100, k at level 200) : prog_scope.
Notation "'call' x <- p ;; k" := (bind p (fun x => k))
  (at level 10, x name, p at level 100, k at level 200) : prog_scope.
Open Scope prog_scope.

(** An operation performed, with its arguments. *)
Definition Event : Type := { X : Type & Op X }.
Definition event {X : Type} (o : Op X) : Event := existT Op X o.

Definition is_store_read (e : Event) : bool :=
  match projT2 e with
  | db_query_user _ | db_query_user_cart _ | db_query_users
  | db_query_users_reset _ _ | db_query_item _ | db_query_cartItem _
  | db_query_cartItems _ _ | db_query_order _ | db_query_orders _ => true
  | _ => false
  end.

Definition is_store_write (e : Event) : bool :=
  match projT2 e with
  | db_mutation_createItem _ _ | db_mutation_updateItem _ _
  | db_mutation_deleteItem _ | db_mutation_createUser _ _
  | db_mutation_updateUser _ _ | db_mutation_updateCartItem _ _
  | db_mutation_createCartItem _ _ | db_mutation_deleteCartItem _
  | db_mutation_createOrder _ _ _ _ | db_mutation_deleteManyCartItems _ => true
  | _ => false
  end.

(** ** The collaborators

    What the resolvers cannot decide is an input of the run: the identifier
    the store gives to the next node it creates, the clock, the answer of
    the gateway, the salted hash, the random bytes, the mail transport and
    the token signature (of a payload with a [userId], and of one whose
    [userId] is [undefined]). *)
Record Env := mkEnv {
  new_id : Store -> ID;
  clock : Z;
  charge_outcome : Z -> string -> string -> Exn + Charge;
  hash_outcome : string -> Z -> string;
  random_hex : Z -> string;
  mail_accepted : string -> bool;
  signature : ID -> string -> string;
  signature_undefined : string -> string
}.

(** ** The store protocol *)

Definition user_matches (w : UserWhere) (u : User) : bool :=
  match w with
  | where_id id => String.eqb (user_id u) id
  | where_email email => String.eqb (user_email u) email
  end.

Definition find_user (w : UserWhere) (s : Store) : option User :=
  find (user_matches w) (users s).

Definition find_item (id : ID) (s : Store) : option Item :=
  find (fun it => String.eqb (item_id it) id) (items s).

Definition cart_matches (uid iid : ID) (ci : CartItem) : bool :=
  String.eqb (cart_user ci) uid && String.eqb (cart_item ci) iid.

Definition cart_line (s : Store) (ci : CartItem) : CartLine :=
  mkCartLine (cart_id ci) (cart_quantity ci) (find_item (cart_item ci) s).

Definition user_cart (s : Store) (uid : ID) : list CartLine :=
  map (cart_line s)
      (filter (fun ci => String.eqb (cart_user ci) uid) (cartItems s)).

(** The filter of [resetPassword]: the token is equal and the expiry is set
    and greater than or equal to the bound. *)
Definition reset_matches (token : string) (bound : Z) (u : User) : bool :=
  match user_resetToken u, user_resetTokenExpiry u with
  | Some t, Some e => String.eqb t token && (bound <=? e)
  | _, _ => false
  end.

Fixpoint update_first {A : Type} (p : A -> bool) (f : A -> A) (l : list A)
  : option (A * list A) :=
  match l with
  | [] => None
  | x :: l' =>
      if p x then Some (f x, f x :: l')
      else match update_first p f l' with
           | Some (y, l'') => Some (y, x :: l'')
           | None => None
           end
  end.

Fixpoint remove_first {A : Type} (p : A -> bool) (l : list A)
  : option (A * list A) :=
  match l with
  | [] => None
  | x :: l' =>
      if p x then Some (x, l')
      else match remove_first p l' with
           | Some (y, l'') => Some (y, x :: l'')
           | None => None
           end
  end.

Definition includes (l : list string) (x : string) : bool :=
  existsb (String.eqb x) l.

Definition or_else {A : Type} (o : option A) (d : A) : A :=
  match o with Some a => a | None => d end.

Definition apply_user_data (d : UserData) (u : User) : User :=
  mkUser (user_id u) (user_name u) (user_email u)
         (or_else (data_password d) (user_password u))
         (or_else (data_permissions d) (user_permissions u))
         (or_else (data_resetToken d) (user_resetToken u))
         (or_else (data_resetTokenExpiry d) (user_resetTokenExpiry u)).

Definition apply_item_updates (d : ItemUpdates) (it : Item) : Item :=
  mkItem (item_id it)
         (or_else (upd_title d) (item_title it))
         (or_else (upd_description d) (item_description it))
         (item_image it) (item_largeImage it)
         (or_else (upd_price d) (item_price it))
         (item_user it).

Definition set_quantity (q : Z) (ci : CartItem) : CartItem :=
  mkCartItem (cart_id ci) q (cart_item ci) (cart_user ci).

Definition with_users (s : Store) (l : list User) : Store :=
  mkStore l (items s) (cartItems s) (orders s).
Definition with_items (s : Store) (l : list Item) : Store :=
  mkStore (users s) l (cartItems s) (orders s).
Definition with_cartItems (s : Store) (l : list CartItem) : Store :=
  mkStore (users s) (items s) l (orders s).
Definition with_orders (s : Store) (l : list Order) : Store :=
  mkStore (users s) (items s) (cartItems s) l.

Definition is_some {A : Type} (o : option A) : bool :=
  match o with Some _ => true | None => false end.

(** Modelled from the spec: the default of [quantity] on a created cart
    item is set in the datamodel of the store, which is not among the
    sources; the spec has "creates a new CartItem with quantity 1". *)
Definition default_quantity : Z := 1.

(** The store answers a query without changing, rejects a mutation whose
    [where] or [connect] names no node, and otherwise changes one table. *)
Definition handle (env : Env) (s : Store) {X : Type} (o : Op X)
  : (Exn + X) * Store :=
  match o in Op X return (Exn + X) * Store with
  | db_query_user w => (inr (find_user w s), s)
  | db_query_user_cart id =>
      (inr (match find_user (where_id id) s with
            | Some u => Some (u, user_cart s id)
            | None => None
            end), s)
  | db_query_users => (inr (users s), s)
  | db_query_users_reset token bound =>
      (inr (filter (reset_matches token bound) (users s)), s)
  | db_query_item id => (inr (find_item id s), s)
  | db_query_cartItem id =>
      (inr (find (fun ci => String.eqb (cart_id ci) id) (cartItems s)), s)
  | db_query_cartItems uid iid =>
      (inr (filter (cart_matches uid iid) (cartItems s)), s)
  | db_query_order id =>
      (inr (find (fun o => String.eqb (order_id o) id) (orders s)), s)
  | db_query_orders uid =>
      (inr (filter (fun o => String.eqb (order_user o) uid) (orders s)), s)
  | db_mutation_createItem owner args =>
      if is_some (find_user (where_id owner) s) then
        let it := mkItem (new_id env s) (arg_title args) (arg_description args)
                         (arg_image args) (arg_largeImage args) (arg_price args)
                         owner in
        (inr it, with_items s (items s ++ [it]))
      else (inl StoreError, s)
  | db_mutation_updateItem id data =>
      match update_first (fun it => String.eqb (item_id it) id)
                         (apply_item_updates data) (items s) with
      | Some (it, l) => (inr it, with_items s l)
      | None => (inl StoreError, s)
      end
  | db_mutation_deleteItem id =>
      match remove_first (fun it => String.eqb (item_id it) id) (items s) with
      | Some (it, l) => (inr it, with_items s l)
      | None => (inl StoreError, s)
      end
  | db_mutation_createUser args permissions =>
      if is_some (find_user (where_email (su_email args)) s) then
        (inl StoreError, s)
      else
        let u := mkUser (new_id env s) (su_name args) (su_email args)
                        (su_password args) permissions None None in
        (inr u, with_users s (users s ++ [u]))
  | db_mutation_updateUser w data =>
      match update_first (user_matches w) (apply_user_data data) (users s) with
      | Some (u, l) => (inr u, with_users s l)
      | None => (inl StoreError, s)
      end
  | db_mutation_updateCartItem id quantity =>
      match update_first (fun ci => String.eqb (cart_id ci) id)
                         (set_quantity quantity) (cartItems s) with
      | Some (ci, l) => (inr ci, with_cartItems s l)
      | None => (inl StoreError, s)
      end
  | db_mutation_createCartItem uid iid =>
      if is_some (find_user (where_id uid) s) && is_some (find_item iid s) then
        let ci := mkCartItem (new_id env s) default_quantity iid uid in
        (inr ci, with_cartItems s (cartItems s ++ [ci]))
      else (inl StoreError, s)
  | db_mutation_deleteCartItem id =>
      match remove_first (fun ci => String.eqb (cart_id ci) id) (cartItems s) with
      | Some (ci, l) => (inr ci, with_cartItems s l)
      | None => (inl StoreError, s)
      end
  | db_mutation_createOrder total charge create uid =>
      if is_some (find_user (where_id uid) s) then
        let o := mkOrder (new_id env s) create total uid charge in
        (inr o, with_orders s (orders s ++ [o]))
      else (inl StoreError, s)
  | db_mutation_deleteManyCartItems ids =>
      let keep := filter (fun ci => negb (includes ids (cart_id ci))) (cartItems s) in
      (inr (Z.of_nat (List.length (cartItems s) - List.length keep)), with_cartItems s keep)
  | stripe_charges_create amount currency source =>
      (charge_outcome env amount currency source, s)
  | bcrypt_hash plain rounds => (inr (hash_outcome env plain rounds), s)
  | randomBytes_hex n => (inr (random_hex env n), s)
  | Date_now => (inr (clock env), s)
  | transport_sendMail _ to _ _ =>
      (if mail_accepted env to then inr tt else inl MailError, s)
  | jwt_sign uid secret => (inr (signature env uid secret), s)
  | jwt_sign_undefined secret => (inr (signature_undefined env secret), s)
  | res_cookie _ _ _ _ => (inr tt, s)
  end.

(** ** Running a resolver *)

Record Outcome (A : Type) := mkOutcome {
  result : Exn + A;
  final : Store;
  trace : list Event
}.
Arguments mkOutcome {A} result final trace.
Arguments result {A} o.
Arguments final {A} o.
Arguments trace {A} o.

(** The operation [e] was performed, then the run [out] followed. *)
Definition after {A : Type} (e : Event) (out : Outcome A) : Outcome A :=
  mkOutcome (result out) (final out) (e :: trace out).

(** A resolver gives up control at each [await]; the requests served
    meanwhile may have changed the store when the operation is carried out.
    [others] lists what they did to the store before each operation of the
    run, in order; a run on its own has the empty list. *)
Definition meanwhile (others : list (Store -> Store)) (s : Store) : Store :=
  match others with
  | f :: _ => f s
  | [] => s
  end.

Fixpoint exec {A : Type} (env : Env) (others : list (Store -> Store))
  (p : Prog A) (s : Store) : Outcome A :=
  match p with
  | Ret a => mkOutcome (inr a) s []
  | Throw e => mkOutcome (inl e) s []
  | Vis o k =>
      match handle env (meanwhile others s) o with
      | (inl e, s1) => mkOutcome (inl e) s1 [event o]
      | (inr x, s1) => after (event o) (exec env (tl others) (k x) s1)
      end
  end.

Definition run {A : Type} (env : Env) (p : Prog A) (s : Store) : Outcome A :=
  exec env [] p s.

(** ** JavaScript values the resolvers test *)

(** [!userId]: [undefined] and the empty string are falsy. *)
Definition truthy_id (u : option ID) : option ID :=
  match u with
  | Some (String c r) => Some (String c r)
  | _ => None
  end.

(** [id === ctx.request.userId] with [id] a string. *)
Definition strict_eq (id : ID) (u : option ID) : bool :=
  match u with
  | Some v => String.eqb id v
  | None => false
  end.

Definition lower_ascii (c : ascii) : ascii :=
  let n := nat_of_ascii c in
  if ((65 <=? n)%nat && (n <=? 90)%nat)%bool then ascii_of_nat (n + 32) else c.

(** [String.prototype.toLowerCase] on strings of ASCII characters: the
    letters A to Z become a to z.  (On other strings JavaScript also
    lower-cases the letters beyond ASCII; what is proved of the value of
    [toLowerCase] is proved for ASCII strings.) *)
Fixpoint toLowerCase (s : string) : string :=
  match s with
  | EmptyString => EmptyString
  | String c r => String (lower_ascii c) (toLowerCase r)
  end.

(** Modelled from the spec: [hasPermission] of [utils.js] is not among the
    sources; the spec has "actor is authorized if the intersection of
    actor's permission set and requiredAnyOf is non-empty", and a failure
    [Forbidden] otherwise.  It reads [user.permissions], so it throws a
    [TypeError] on a missing user. *)
Definition hasPermission (u : option User) (permissionsNeeded : list string)
  : Prog unit :=
  match u with
  | None => Throw TypeError
  | Some u =>
      if existsb (includes permissionsNeeded) (user_permissions u)
      then Ret tt
      else Throw (Error "Forbidden")
  end.

(** The double nearest to an integer, ties to the even significand: an
    integer below 2^53 in absolute value is a double; a larger one keeps
    its 53 leading bits.  (Doubles overflow from 2^1024 on, out of reach
    of sums of products of 32-bit integers.) *)
Definition round53 (z : Z) : Z :=
  let a := Z.abs z in
  if a <? 2 ^ 53 then z
  else
    let e := Z.log2 a - 52 in
    let q := Z.shiftr a e in
    let r := a - Z.shiftl q e in
    let half := 2 ^ (e - 1) in
    let q' := if ((half <? r) || ((r =? half) && Z.odd q))%bool then q + 1 else q in
    Z.sgn z * Z.shiftl q' e.

(** [x + y] and [x * y] on JavaScript numbers that hold integers. *)
Definition js_add (x y : Z) : Z := round53 (round53 x + round53 y).
Definition js_mul (x y : Z) : Z := round53 (round53 x * round53 y).

(** [user.cart.reduce((tally, cartItem) =>
       tally + cartItem.item.price * cartItem.quantity, 0)];
    [None] is the [TypeError] of reading [price] on a missing item. *)
Definition tally_step (tally : option Z) (cartItem : CartLine) : option Z :=
  match tally, line_item cartItem with
  | Some t, Some it =>
      Some (js_add t (js_mul (item_price it) (line_quantity cartItem)))
  | _, _ => None
  end.

Definition cart_amount (cart : list CartLine) : option Z :=
  fold_left tally_step cart (Some 0).

(** [{ ...cartItem.item, quantity, user: { connect: { id: userId } } }]
    with [id] deleted. *)
Definition orderItem_of (userId : ID) (it : Item) (quantity : Z) : OrderItem :=
  mkOrderItem (item_title it) (item_description it) (item_image it)
              (item_largeImage it) (item_price it) quantity userId.

Fixpoint orderItems_of (userId : ID) (cart : list CartLine)
  : option (list OrderItem) :=
  match cart with
  | [] => Some []
  | cartItem :: rest =>
      match line_item cartItem, orderItems_of userId rest with
      | Some it, Some l =>
          Some (orderItem_of userId it (line_quantity cartItem) :: l)
      | _, _ => None
      end
  end.

(** ** The resolvers of [Mutation.js] *)

Section Mutations.

(** [process.env.APP_SECRET], [process.env.FRONTEND_URL] and
    [makeANiceEmail] of [mail.js] are not among the sources. *)
Variable APP_SECRET : string.
Variable FRONTEND_URL : string.
Variable makeANiceEmail : string -> string.

Definition cookie_maxAge : Z := 1000 * 60 * 60 * 24 * 365.

(** The double quote of the reset link's [href]. *)
Definition dquote : string := String (ascii_of_nat 34) EmptyString.

Definition generateJWT (userId : ID) : Prog unit :=
  await token <- jwt_sign userId APP_SECRET ;;
  await _ <- res_cookie "token" token true cookie_maxAge ;;
  Ret tt.

Definition createItem (args : ItemArgs) (ctx : Request) : Prog Item :=
  match truthy_id (userId ctx) with
  | None => Throw (Error "You need to login")
  | Some uid =>
      await item <- db_mutation_createItem uid args ;;
      Ret item
  end.

Definition updateItem (id : ID) (updates : ItemUpdates) (ctx : Request)
  : Prog Item :=
  await item <- db_mutation_updateItem id updates ;;
  Ret item.

Definition deleteItem (id : ID) (ctx : Request) : Prog Item :=
  await item <- db_query_item id ;;
  match item with
  | None => Throw TypeError
  | Some item =>
      let ownsItem := strict_eq (item_user item) (userId ctx) in
      match user ctx with
      | None => Throw TypeError
      | Some u =>
          let hasPermissions :=
            existsb (fun permission => includes ["ADMIN"; "ITEMDELETE"] permission)
                    (user_permissions u) in
          if negb ownsItem && negb hasPermissions
          then Throw (Error "You don't have permissions")
          else (await deleted <- db_mutation_deleteItem id ;; Ret deleted)
      end
  end.

Definition signup (args : SignupArgs) (ctx : Request) : Prog User :=
  let email := toLowerCase (su_email args) in
  await password <- bcrypt_hash (su_password args) 10 ;;
  await u <- db_mutation_createUser
         (mkSignupArgs email (su_name args) password) ["USER"] ;;
  await token <- (if selects_id (info ctx)
                  then jwt_sign (user_id u) APP_SECRET
                  else jwt_sign_undefined APP_SECRET) ;;
  await _ <- res_cookie "token" token true cookie_maxAge ;;
  Ret u.

Definition requestReset (email : string) (ctx : Request) : Prog string :=
  await u <- db_query_user (where_email email) ;;
  match u with
  | None => Throw (Error ("No such user found for email " ++ email))
  | Some u =>
      await resetToken <- randomBytes_hex 20 ;;
      await now <- Date_now ;;
      let resetTokenExpiry := now + 3600000 in
      await _ <- db_mutation_updateUser (where_email email)
             (mkUserData None (Some (Some resetToken))
                         (Some (Some resetTokenExpiry)) None) ;;
      await _ <- transport_sendMail "enrique.acuna@gmail.com" (user_email u)
             "Your Passrword Reset"
             (makeANiceEmail
                ("<a href=" ++ dquote ++ FRONTEND_URL ++ "/reset?resetToken="
                 ++ resetToken ++ dquote
                 ++ ">Click here to reset your password </a>")) ;;
      Ret "Reset sent!"
  end.

Definition resetPassword (args : ResetArgs) (ctx : Request) : Prog User :=
  if negb (String.eqb (ra_password args) (ra_confirmPassword args))
  then Throw (Error "Passwords don't match!")
  else
    await now <- Date_now ;;
    await found <- db_query_users_reset (ra_resetToken args) (now - 3600000) ;;
    match found with
    | [] => Throw (Error "This token is either invalid or expired!")
    | u :: _ =>
        await password <- bcrypt_hash (ra_password args) 10 ;;
        await updatedUser <- db_mutation_updateUser (where_email (user_email u))
                         (mkUserData (Some password) (Some None) (Some None) None) ;;
        call _ <- generateJWT (user_id updatedUser) ;;
        Ret updatedUser
    end.

Definition updatePermissions (permissions : list string) (target : ID)
  (ctx : Request) : Prog User :=
  match truthy_id (userId ctx) with
  | None => Throw (Error "You must be logged in!")
  | Some uid =>
      await currentUser <- db_query_user (where_id uid) ;;
      call _ <- (match currentUser with
                 | Some u =>
                     if selects_permissions (info ctx)
                     then hasPermission (Some u) ["ADMIN"; "PERMISSIONUPDATE"]
                     else Throw TypeError
                 | None => hasPermission None ["ADMIN"; "PERMISSIONUPDATE"]
                 end) ;;
      await updated <- db_mutation_updateUser (where_id target)
                   (mkUserData None None None (Some permissions)) ;;
      Ret updated
  end.

Definition addToCart (id : ID) (ctx : Request) : Prog CartItem :=
  match truthy_id (userId ctx) with
  | None => Throw (Error "You must be logged in!")
  | Some uid =>
      await found <- db_query_cartItems uid id ;;
      match found with
      | existingCartItem :: _ =>
          await updated <- db_mutation_updateCartItem (cart_id existingCartItem)
                       (cart_quantity existingCartItem + 1) ;;
          Ret updated
      | [] =>
          await created <- db_mutation_createCartItem uid id ;;
          Ret created
      end
  end.

Definition removeFromCart (id : ID) (ctx : Request) : Prog CartItem :=
  await cartItem <- db_query_cartItem id ;;
  match cartItem with
  | None => Throw (Error "No CartItem Found!")
  | Some cartItem =>
      if negb (strict_eq (cart_user cartItem) (userId ctx))
      then Throw (Error "Operation unallowed")
      else (await deleted <- db_mutation_deleteCartItem id ;; Ret deleted)
  end.

Definition createOrder (token : string) (ctx : Request) : Prog Order :=
  match truthy_id (userId ctx) with
  | None => Throw (Error "You must be signed in to complete this order.")
  | Some uid =>
      await found <- db_query_user_cart uid ;;
      match found with
      | None => Throw TypeError
      | Some (u, cart) =>
          match cart_amount cart with
          | None => Throw TypeError
          | Some amount =>
              await charge <- stripe_charges_create amount "USD" token ;;
              match orderItems_of uid cart with
              | None => Throw TypeError
              | Some orderItems =>
                  await order <- db_mutation_createOrder (charge_amount charge)
                             (charge_id charge) orderItems uid ;;
                  let cartItemIds := map line_id cart in
                  await _ <- db_mutation_deleteManyCartItems cartItemIds ;;
                  Ret order
              end
          end
      end
  end.

End Mutations.

(** ** The resolvers of [Query.js] *)

Definition me (ctx : Request) : Prog (option User) :=
  match truthy_id (userId ctx) with
  | None => Ret None
  | Some uid =>
      await u <- db_query_user (where_id uid) ;;
      Ret u
  end.

Definition users_query (ctx : Request) : Prog (list User) :=
  match truthy_id (userId ctx) with
  | None => Throw (Error "You need to login!")
  | Some uid =>
      call _ <- hasPermission (user ctx) ["ADMIN"; "PERMISSIONUPDATE"] ;;
      await all <- db_query_users ;;
      Ret all
  end.

Definition order_query (id : ID) (ctx : Request) : Prog Order :=
  match truthy_id (userId ctx) with
  | None => Throw (Error "You need to login!")
  | Some uid =>
      await found <- db_query_order id ;;
      match found with
      | None => Throw TypeError
      | Some order =>
          if negb (selects_user (info ctx)) then Throw TypeError
          else
            let ownsOrder :=
              selects_user_id (info ctx)
              && strict_eq (order_user order) (userId ctx) in
            match user ctx with
            | None => Throw TypeError
            | Some u =>
                let isAdmin := includes (user_permissions u) "ADMIN" in
                if negb ownsOrder && negb isAdmin
                then Throw (Error "You don't have permission")
                else Ret order
            end
      end
  end.

Definition orders_query (ctx : Request) : Prog (list Order) :=
  match truthy_id (userId ctx) with
  | None => Throw (Error "you must be signed in!")
  | Some uid =>
      await found <- db_query_orders uid ;;
      Ret found
  end.

(** ** A shop to run the resolvers on *)

Module Sample.

Definition alice : User :=
  mkUser "u1" "Alice" "alice@shop.io" "$2a$10$alice" ["USER"] None None.
Definition bob : User :=
  mkUser "u2" "Bob" "bob@shop.io" "$2a$10$bob" ["USER"; "ADMIN"] None None.
Definition carol : User :=
  mkUser "u3" "Carol" "carol@shop.io" "$2a$10$carol" ["USER"] None None.

Definition shoes : Item := mkItem "i1" "Shoes" "Red shoes" "s.jpg" "S.jpg" 1000 "u2".
Definition socks : Item := mkItem "i2" "Socks" "Wool socks" "k.jpg" "K.jpg" 500 "u2".
Definition scarf : Item := mkItem "i3" "Scarf" "Long scarf" "f.jpg" "F.jpg" 700 "u1".

Definition shop : Store :=
  mkStore [alice; bob; carol] [shoes; socks; scarf]
          [mkCartItem "c1" 2 "i1" "u1"; mkCartItem "c2" 1 "i2" "u1";
           mkCartItem "c3" 1 "i1" "u2"]
          [].

(** The new identifier is longer than every identifier in the store. *)
Definition next_id (s : Store) : ID :=
  "n" ++ String.concat "" (map user_id (users s) ++ map item_id (items s)
                           ++ map cart_id (cartItems s) ++ map order_id (orders s)).

(** A gateway that captures what it is asked, one that captures one unit
    less, and one that declines. *)
Definition captures (amount : Z) (currency source : string) : Exn + Charge :=
  inr (mkCharge ("ch_" ++ source) amount).
Definition rounds_down (amount : Z) (currency source : string) : Exn + Charge :=
  inr (mkCharge ("ch_" ++ source) (amount - 1)).
Definition declines (amount : Z) (currency source : string) : Exn + Charge :=
  inl (GatewayError "Your card was declined.").

Definition world (now : Z) (gateway : Z -> string -> string -> Exn + Charge) : Env :=
  mkEnv next_id now gateway
        (fun plain rounds => "$2a$" ++ plain)
        (fun n => "5f2c9a")
        (fun to => true)
        (fun uid secret => uid ++ "." ++ secret)
        (fun secret => "." ++ secret).

Definition session (u : User) : Request :=
  mkRequest (Some (user_id u)) (Some u) selects_everything.
Definition anonymous : Request := mkRequest None None selects_everything.

End Sample.

(** ** The vocabulary of the statements *)

(** The cart snapshot [(item_1, qty_1), ..., (item_n, qty_n)] read off the
    cart lines the store returned. *)
Definition snapshot_of (cart : list CartLine) (snapshot : list (Item * Z)) : Prop :=
  Forall2 (fun l p => line_item l = Some (fst p) /\ line_quantity l = snd p)
          cart snapshot.

(** The total of a snapshot as the reduce computes it: from the left, each
    product and each sum a JavaScript number. *)
Definition tally_from (tally : Z) (snapshot : list (Item * Z)) : Z :=
  fold_left (fun t p => js_add t (js_mul (item_price (fst p)) (snd p)))
            snapshot tally.

Definition snapshot_total (snapshot : list (Item * Z)) : Z :=
  tally_from 0 snapshot.

(** The sum of [price * quantity] over a snapshot, in the integers. *)
Definition exact_total (snapshot : list (Item * Z)) : Z :=
  fold_right (fun p acc => item_price (fst p) * snd p + acc) 0 snapshot.

(** An integer that JavaScript holds exactly. *)
Definition safe_integer (z : Z) : Prop := Z.abs z < 2 ^ 53.

(** Every price, quantity, product and running sum of the reduce, started
    at [tally], is held exactly. *)
Fixpoint exact_from (tally : Z) (snapshot : list (Item * Z)) : Prop :=
  match snapshot with
  | [] => True
  | p :: rest =>
      safe_integer (item_price (fst p))
      /\ safe_integer (snd p)
      /\ safe_integer (item_price (fst p) * snd p)
      /\ safe_integer (tally + item_price (fst p) * snd p)
      /\ exact_from (tally + item_price (fst p) * snd p) rest
  end.

Definition within_safe_integers (snapshot : list (Item * Z)) : Prop :=
  exact_from 0 snapshot.

(** A string of ASCII characters: on these [toLowerCase] above is
    [String.prototype.toLowerCase]. *)
Fixpoint ascii_only (e : string) : bool :=
  match e with
  | EmptyString => true
  | String c r => ((nat_of_ascii c <? 128)%nat && ascii_only r)%bool
  end.

Definition rows_for (uid iid : ID) (s : Store) : list CartItem :=
  filter (cart_matches uid iid) (cartItems s).

Definition one_row_per_pair (s : Store) : Prop :=
  forall uid iid, (List.length (rows_for uid iid s) <= 1)%nat.

(** The actor's id is the owner's id, or the actor holds one of the two
    permissions. *)
Definition may_delete (item : Item) (ctx : Request) (actor : User) : Prop :=
  userId ctx = Some (item_user item)
  \/ exists p, In p (user_permissions actor) /\ In p ["ADMIN"; "ITEMDELETE"].

Definition is_deleteItem (id : ID) (e : Event) : bool :=
  match projT2 e with
  | db_mutation_deleteItem id' => String.eqb id id'
  | _ => false
  end.

Definition unique_item_ids (s : Store) : Prop := NoDup (map item_id (items s)).

(** The store after [requestReset] for Alice at time 0. *)
Definition issued_at_0 : Store :=
  final (run (Sample.world 0 Sample.captures)
             (requestReset "https://shop.io" (fun text => text)
                           "alice@shop.io" Sample.anonymous)
             Sample.shop).

(** A resolver rejects the callers without a session: it fails, and its
    run has no store operation. *)
Definition rejects_unauthenticated {A : Type} (resolver : Request -> Prog A)
  : Prop :=
  forall env s ctx,
    truthy_id (userId ctx) = None ->
    let out := run env (resolver ctx) s in
    (exists e, result out = inl e)
    /\ existsb (fun ev => is_store_read ev || is_store_write ev)%bool (trace out)
       = false.

Definition every_mutation_requires_session : Prop :=
  forall APP_SECRET FRONTEND_URL makeANiceEmail,
    (forall args, rejects_unauthenticated (createItem args))
    /\ (forall id updates, rejects_unauthenticated (updateItem id updates))
    /\ (forall id, rejects_unauthenticated (deleteItem id))
    /\ (forall permissions target,
          rejects_unauthenticated (updatePermissions permissions target))
    /\ (forall id, rejects_unauthenticated (addToCart id))
    /\ (forall id, rejects_unauthenticated (removeFromCart id))
    /\ (forall token, rejects_unauthenticated (createOrder token))
    /\ (forall email,
          rejects_unauthenticated (requestReset FRONTEND_URL makeANiceEmail email))
    /\ (forall args, rejects_unauthenticated (resetPassword APP_SECRET args)).

(** ** [signin]

    [bcrypt.compare] is a function of the password and the stored hash; it
    is a parameter here.  [signin] awaits it between the query and the
    cookie, and issues no operation on the store for it. *)

Section Signin.

Variable APP_SECRET : string.
Variable bcrypt_compare : string -> string -> bool.

Definition signin (email password : string) (ctx : Request) : Prog User :=
  await found <- db_query_user (where_email email) ;;
  match found with
  | None => Throw (Error "Incorrect email or password")
  | Some u =>
      let isValid := bcrypt_compare password (user_password u) in
      if negb isValid
      then Throw (Error "Incorrect email or password")
      else
        (await token <- jwt_sign (user_id u) APP_SECRET ;;
         await _ <- res_cookie "token" token true (1000 * 60 * 60 * 24 * 365) ;;
         Ret u)
  end.

End Signin.

(** ** More vocabulary: the tables of the store *)

Definition unique_cart_ids (s : Store) : Prop := NoDup (map cart_id (cartItems s)).

Definition no_store_write {A : Type} (out : Outcome A) : Prop :=
  existsb is_store_write (trace out) = false.

(** [n] calls of a resolver in a row, each on the store the previous one
    left. *)
Fixpoint repeatedly {A : Type} (env : Env) (p : Prog A) (n : nat) (s : Store)
  : Store :=
  match n with
  | O => s
  | S m => final (run env p (repeatedly env p m s))
  end.

(** A user after [requestReset] wrote a token, and after [resetPassword]
    wrote a password. *)
Definition holding_token (u : User) (token : string) (expiry : Z) : User :=
  mkUser (user_id u) (user_name u) (user_email u) (user_password u)
         (user_permissions u) (Some token) (Some expiry).

Definition with_password (u : User) (hashed : string) : User :=
  mkUser (user_id u) (user_name u) (user_email u) hashed
         (user_permissions u) None None.

Definition nobody_holds (token : string) (s : Store) : Prop :=
  forall v, In v (users s) -> user_resetToken v <> Some token.

Definition unique_new_item_id (env : Env) (s : Store) : Prop :=
  ~ In (new_id env s) (map item_id (items s)).

Definition unique_new_cart_id (env : Env) (s : Store) : Prop :=
  ~ In (new_id env s) (map cart_id (cartItems s)).

Definition find_cartItem (id : ID) (s : Store) : option CartItem :=
  find (fun ci => String.eqb (cart_id ci) id) (cartItems s).

Definition find_order (id : ID) (s : Store) : option Order :=
  find (fun o => String.eqb (order_id o) id) (orders s).

(** The order [createOrder] persists for a snapshot and a charge. *)
Definition order_for (env : Env) (s : Store) (uid : ID)
  (snapshot : list (Item * Z)) (charge : Charge) : Order :=
  mkOrder (new_id env s)
          (map (fun p => orderItem_of uid (fst p) (snd p)) snapshot)
          (charge_amount charge) uid (charge_id charge).

Definition owned_by (uid : ID) (ci : CartItem) : bool :=
  String.eqb (cart_user ci) uid.

Definition with_permissions (u : User) (permissions : list string) : User :=
  mkUser (user_id u) (user_name u) (user_email u) (user_password u)
         permissions (user_resetToken u) (user_resetTokenExpiry u).

Definition unique_new_user_id (env : Env) (s : Store) : Prop :=
  ~ In (new_id env s) (map user_id (users s)).

(** ** Runs, one operation at a time *)

Lemma exec_await :
  forall (A X : Type) env others (o : Op X) (k : X -> Prog A) s,
    exec env others (Vis o k) s
    = match handle env (meanwhile others s) o with
      | (inl e, s1) => mkOutcome (inl e) s1 [event o]
      | (inr x, s1) => after (event o) (exec env (tl others) (k x) s1)
      end.
Proof. reflexivity. Qed.

Lemma run_await :
  forall (A X : Type) env (o : Op X) (k : X -> Prog A) s,
    run env (Vis o k) s
    = match handle env s o with
      | (inl e, s1) => mkOutcome (inl e) s1 [event o]
      | (inr x, s1) => after (event o) (run env (k x) s1)
      end.
Proof. reflexivity. Qed.

Lemma run_ret : forall (A : Type) env (a : A) s,
    run env (Ret a) s = mkOutcome (inr a) s [].
Proof. reflexivity. Qed.

Lemma run_throw : forall (A : Type) env e s,
    run env (@Throw A e) s = mkOutcome (inl e) s [].
Proof. reflexivity. Qed.

Lemma result_after : forall (A : Type) e (out : Outcome A),
    result (after e out) = result out.
Proof. reflexivity. Qed.

Lemma final_after : forall (A : Type) e (out : Outcome A),
    final (after e out) = final out.
Proof. reflexivity. Qed.

(** ** Checkout: the amount charged and the order persisted *)

Lemma fold_tally_snapshot :
  forall cart snapshot, snapshot_of cart snapshot ->
  forall a, fold_left tally_step cart (Some a) = Some (tally_from a snapshot).
Proof.
  induction 1 as [| l p cart snapshot [Hi Hq] _ IH]; intro a.
  - reflexivity.
  - cbn [fold_left]. unfold tally_step at 2. rewrite Hi, Hq, IH. reflexivity.
Qed.

Lemma cart_amount_snapshot :
  forall cart snapshot, snapshot_of cart snapshot ->
  cart_amount cart = Some (snapshot_total snapshot).
Proof.
  intros cart snapshot H. unfold cart_amount.
  rewrite (fold_tally_snapshot cart snapshot H 0). reflexivity.
Qed.

(** Below 2^53 nothing is rounded, and the reduce is the sum. *)
Lemma round53_safe : forall z, safe_integer z -> round53 z = z.
Proof.
  intros z Hz. unfold round53, safe_integer in *.
  apply Z.ltb_lt in Hz. rewrite Hz. reflexivity.
Qed.

Lemma js_tally_exact :
  forall tally price quantity,
    safe_integer tally -> safe_integer price -> safe_integer quantity ->
    safe_integer (price * quantity) -> safe_integer (tally + price * quantity) ->
    js_add tally (js_mul price quantity) = tally + price * quantity.
Proof.
  intros tally price quantity Ht Hp Hq Hpq Hsum. unfold js_add, js_mul.
  rewrite (round53_safe _ Hp), (round53_safe _ Hq), !(round53_safe _ Hpq).
  rewrite (round53_safe _ Ht), (round53_safe _ Hsum). reflexivity.
Qed.

Lemma tally_from_cons :
  forall tally p rest,
    tally_from tally (p :: rest)
    = tally_from (js_add tally (js_mul (item_price (fst p)) (snd p))) rest.
Proof. reflexivity. Qed.

Lemma tally_from_exact :
  forall snapshot tally,
    safe_integer tally -> exact_from tally snapshot ->
    tally_from tally snapshot = tally + exact_total snapshot.
Proof.
  induction snapshot as [| p rest IH]; intros tally Ht Hex.
  - cbn. lia.
  - destruct Hex as [Hp [Hq [Hpq [Hsum Hrest]]]].
    rewrite tally_from_cons, (js_tally_exact _ _ _ Ht Hp Hq Hpq Hsum).
    rewrite (IH _ Hsum Hrest).
    unfold exact_total. cbn [fold_right]. lia.
Qed.

Lemma snapshot_total_exact :
  forall snapshot,
    within_safe_integers snapshot -> snapshot_total snapshot = exact_total snapshot.
Proof.
  intros snapshot H. unfold snapshot_total.
  rewrite (tally_from_exact snapshot 0); [lia | | exact H].
  unfold safe_integer. reflexivity.
Qed.

(** Above 2^53 the amount is the rounded one: at the largest 32-bit price
    and quantity the reduce gives 4611686014132420608, one less than the
    product. *)
Lemma cart_amount_rounds_large_products :
  cart_amount [mkCartLine "c" 2147483647
                 (Some (mkItem "i" "t" "d" "a" "b" 2147483647 "u"))]
  = Some 4611686014132420608
  /\ exact_total [(mkItem "i" "t" "d" "a" "b" 2147483647 "u", 2147483647)]
     = 4611686014132420609.
Proof. split; reflexivity. Qed.

Lemma orderItems_of_snapshot :
  forall uid cart snapshot, snapshot_of cart snapshot ->
  orderItems_of uid cart
  = Some (map (fun p => orderItem_of uid (fst p) (snd p)) snapshot).
Proof.
  induction 1 as [| l p cart snapshot [Hi Hq] _ IH]; simpl.
  - reflexivity.
  - rewrite Hi, IH, Hq. reflexivity.
Qed.

(** Where the reduce gives an amount, every line has its item: the map to
    order items that follows the charge does not throw. *)
Lemma fold_tally_none :
  forall cart, fold_left tally_step cart None = None.
Proof. induction cart as [| l cart IH]; simpl; auto. Qed.

Lemma cart_amount_orderItems :
  forall uid cart a b, fold_left tally_step cart (Some a) = Some b ->
  exists l, orderItems_of uid cart = Some l.
Proof.
  induction cart as [| l cart IH]; intros a b H; simpl in *.
  - eauto.
  - destruct (line_item l) as [it |].
    + destruct (IH _ _ H) as [r Hr]. rewrite Hr. eauto.
    + rewrite fold_tally_none in H. discriminate.
Qed.

(** C1: for an authenticated user whose cart snapshot is
    [(item_1, qty_1); ...; (item_n, qty_n)], with the prices, quantities,
    products and running sums integers that JavaScript holds exactly
    (below 2^53), the second operation of [createOrder] is the gateway
    charge of the sum of [price * quantity] over the snapshot in currency
    USD, and when the gateway answers with a charge, the order persisted
    has [charge.amount] as its total (and [charge.id] as its charge),
    whatever the sum computed locally. *)
Theorem createOrder_charges_snapshot_total :
  forall env s token ctx uid u snapshot,
    truthy_id (userId ctx) = Some uid ->
    find_user (where_id uid) s = Some u ->
    snapshot_of (user_cart s uid) snapshot ->
    within_safe_integers snapshot ->
    let out := run env (createOrder token ctx) s in
    nth_error (trace out) 1
      = Some (event (stripe_charges_create (exact_total snapshot) "USD" token))
    /\ forall charge,
         charge_outcome env (exact_total snapshot) "USD" token = inr charge ->
         exists order,
           result out = inr order
           /\ order_total order = charge_amount charge
           /\ order_charge order = charge_id charge
           /\ In order (orders (final out)).
Proof.
  intros env s token ctx uid u snapshot Hauth Hu Hsnap Hsafe.
  unfold createOrder. rewrite Hauth.
  rewrite run_await. cbn [handle]. rewrite Hu.
  rewrite (cart_amount_snapshot _ _ Hsnap).
  rewrite (snapshot_total_exact _ Hsafe).
  rewrite (orderItems_of_snapshot uid _ _ Hsnap).
  rewrite run_await. cbn [handle].
  destruct (charge_outcome env (exact_total snapshot) "USD" token)
    as [e | charge] eqn:Hc.
  - split; [reflexivity | intros c Hc'; discriminate].
  - rewrite run_await. cbn [handle]. rewrite Hu. cbn [is_some].
    rewrite run_await. cbn [handle]. rewrite run_ret.
    split; [reflexivity |].
    intros c Hc'. injection Hc' as <-.
    eexists. cbn [after result final trace orders with_orders with_cartItems].
    repeat split. apply in_or_app. right. left. reflexivity.
Qed.

(** C1 at the scenario of the spec: prices 1000 and 500, quantities 2 and
    1, so 2500 is charged; the gateway captures 2499 and the order records
    2499. *)
Lemma createOrder_charges_snapshot_total_witness :
  let out := run (Sample.world 0 Sample.rounds_down)
                 (createOrder "tok_visa" (Sample.session Sample.alice))
                 Sample.shop in
  nth_error (trace out) 1 = Some (event (stripe_charges_create 2500 "USD" "tok_visa"))
  /\ exists order,
       result out = inr order /\ order_total order = 2499
       /\ order_charge order = "ch_tok_visa" /\ In order (orders (final out)).
Proof.
  destruct (createOrder_charges_snapshot_total
              (Sample.world 0 Sample.rounds_down) Sample.shop "tok_visa"
              (Sample.session Sample.alice) "u1" Sample.alice
              [(Sample.shoes, 2); (Sample.socks, 1)]
              eq_refl eq_refl) as [Hcharge Horder].
  - repeat constructor.
  - unfold within_safe_integers, exact_from, safe_integer. cbn.
    repeat split; reflexivity.
  - split; [exact Hcharge |].
    destruct (Horder (mkCharge "ch_tok_visa" 2499) eq_refl)
      as [order [Hr [Ht [Hc Hin]]]].
    exists order.
    split; [exact Hr |]. split; [exact Ht |]. split; [exact Hc | exact Hin].
Defined.

(** C2: when the charge call of [createOrder] is rejected by the gateway,
    the run ends with the gateway's error, the store is the one before the
    call (no order created, the cart rows as they were), and no store
    mutation was issued. *)
Theorem createOrder_gateway_failure_aborts :
  forall env s token ctx uid u amount e,
    truthy_id (userId ctx) = Some uid ->
    find_user (where_id uid) s = Some u ->
    cart_amount (user_cart s uid) = Some amount ->
    charge_outcome env amount "USD" token = inl e ->
    let out := run env (createOrder token ctx) s in
    result out = inl e
    /\ final out = s
    /\ orders (final out) = orders s
    /\ cartItems (final out) = cartItems s
    /\ existsb is_store_write (trace out) = false.
Proof.
  intros env s token ctx uid u amount e Hauth Hu Ham Hc.
  unfold createOrder. rewrite Hauth.
  rewrite run_await. cbn [handle]. rewrite Hu, Ham.
  rewrite run_await. cbn [handle]. rewrite Hc.
  repeat split.
Qed.

Lemma createOrder_gateway_failure_aborts_witness :
  let out := run (Sample.world 0 Sample.declines)
                 (createOrder "tok_visa" (Sample.session Sample.alice))
                 Sample.shop in
  result out = inl (GatewayError "Your card was declined.")
  /\ final out = Sample.shop
  /\ orders (final out) = []
  /\ List.length (cartItems (final out)) = 3%nat
  /\ existsb is_store_write (trace out) = false.
Proof.
  destruct (createOrder_gateway_failure_aborts
              (Sample.world 0 Sample.declines) Sample.shop "tok_visa"
              (Sample.session Sample.alice) "u1" Sample.alice 2500
              (GatewayError "Your card was declined.")
              eq_refl eq_refl eq_refl eq_refl)
    as [Hr [Hf [Ho [Hc Hw]]]].
  split; [exact Hr |]. split; [exact Hf |].
  split; [rewrite Ho; reflexivity |].
  split; [rewrite Hc; reflexivity | exact Hw].
Defined.

(** ** Checkout: the rows cleared *)

Lemma includes_In : forall l x, includes l x = true <-> In x l.
Proof.
  intros l x. unfold includes. rewrite existsb_exists. split.
  - intros [y [Hy He]]. apply String.eqb_eq in He. subst. exact Hy.
  - intro H. exists x. split; [exact H | apply String.eqb_refl].
Qed.

Lemma includes_not_In : forall l x, negb (includes l x) = true <-> ~ In x l.
Proof.
  intros l x. rewrite negb_true_iff, <- includes_In.
  destruct (includes l x); split; congruence.
Qed.

(** C9: in a successful [createOrder], with whatever the other requests
    did to the store before each of its four operations ([f1] before the
    cart query, [f2] before the charge, [f3] before the order is created,
    [f4] before the deletion), the last operation is the deletion by
    [id_in] over the identifiers of the snapshot read by the first one;
    the cart rows left are exactly the rows present before the deletion
    whose identifier is not in the snapshot, so a row added after the
    snapshot stays. *)
Theorem createOrder_deletes_snapshot_rows :
  forall env f1 f2 f3 f4 s token ctx uid order,
    truthy_id (userId ctx) = Some uid ->
    result (exec env [f1; f2; f3; f4] (createOrder token ctx) s) = inr order ->
    let out := exec env [f1; f2; f3; f4] (createOrder token ctx) s in
    let snapshot_ids := map line_id (user_cart (f1 s) uid) in
    let s3 := f3 (f2 (f1 s)) in
    let before := f4 (with_orders s3 (orders s3 ++ [order])) in
    nth_error (trace out) 3
      = Some (event (db_mutation_deleteManyCartItems snapshot_ids))
    /\ final out
       = with_cartItems before
           (filter (fun ci => negb (includes snapshot_ids (cart_id ci)))
                   (cartItems before))
    /\ forall ci, In ci (cartItems (final out))
                  <-> In ci (cartItems before) /\ ~ In (cart_id ci) snapshot_ids.
Proof.
  intros env f1 f2 f3 f4 s token ctx uid order Hauth.
  unfold createOrder. rewrite Hauth.
  rewrite exec_await. cbn [handle meanwhile tl].
  destruct (find_user (where_id uid) (f1 s)) as [u |]; [| discriminate].
  destruct (cart_amount (user_cart (f1 s) uid)) as [amount |]; [| discriminate].
  rewrite exec_await. cbn [handle meanwhile tl].
  destruct (charge_outcome env amount "USD" token) as [e | charge];
    [discriminate |].
  destruct (orderItems_of uid (user_cart (f1 s) uid)) as [orderItems |];
    [| discriminate].
  rewrite exec_await. cbn [handle meanwhile tl].
  destruct (is_some (find_user (where_id uid) (f3 (f2 (f1 s)))));
    [| discriminate].
  rewrite exec_await. cbn [handle meanwhile tl].
  cbn [exec after result final trace].
  intro Hr. injection Hr as <-.
  split; [reflexivity |]. split; [reflexivity |].
  intro ci. cbn [with_cartItems cartItems].
  rewrite filter_In, includes_not_In. reflexivity.
Qed.

(** C9 at a checkout of Alice during which she adds the scarf to her cart:
    the row [c9] appears after the order is created and before the
    deletion; rows [c1] and [c2] of the snapshot go, [c9] stays. *)
Lemma createOrder_deletes_snapshot_rows_witness :
  let added := fun s : Store =>
    with_cartItems s (cartItems s ++ [mkCartItem "c9" 1 "i3" "u1"]) in
  let out := exec (Sample.world 0 Sample.captures)
                  [(fun s => s); (fun s => s); (fun s => s); added]
                  (createOrder "tok_visa" (Sample.session Sample.alice))
                  Sample.shop in
  nth_error (trace out) 3
    = Some (event (db_mutation_deleteManyCartItems ["c1"; "c2"]))
  /\ cartItems (final out)
     = [mkCartItem "c3" 1 "i1" "u2"; mkCartItem "c9" 1 "i3" "u1"]
  /\ (In (mkCartItem "c9" 1 "i3" "u1") (cartItems (final out))
      <-> In (mkCartItem "c9" 1 "i3" "u1")
             (cartItems Sample.shop ++ [mkCartItem "c9" 1 "i3" "u1"])
          /\ ~ In "c9" ["c1"; "c2"]).
Proof.
  intros added out.
  destruct (createOrder_deletes_snapshot_rows
              (Sample.world 0 Sample.captures)
              (fun s => s) (fun s => s) (fun s => s) added
              Sample.shop "tok_visa" (Sample.session Sample.alice) "u1"
              (mkOrder "nu1u2u3i1i2i3c1c2c3"
                 [orderItem_of "u1" Sample.shoes 2; orderItem_of "u1" Sample.socks 1]
                 2500 "u1" "ch_tok_visa")
              eq_refl eq_refl) as [Hlast [Hfinal Hrows]].
  split; [exact Hlast |].
  split; [fold out in Hfinal; rewrite Hfinal; reflexivity |].
  exact (Hrows (mkCartItem "c9" 1 "i3" "u1")).
Defined.

(** ** The cart: one row per user and item *)

Lemma update_first_quantity_rows :
  forall p q l y l',
    update_first p (set_quantity q) l = Some (y, l') ->
    forall uid iid,
      List.length (filter (cart_matches uid iid) l')
      = List.length (filter (cart_matches uid iid) l).
Proof.
  induction l as [| x l IH]; intros y l' H uid iid; simpl in H.
  - discriminate.
  - destruct (p x).
    + injection H as _ <-. simpl.
      change (cart_matches uid iid (set_quantity q x))
        with (cart_matches uid iid x).
      destruct (cart_matches uid iid x); reflexivity.
    + destruct (update_first p (set_quantity q) l) as [[z l''] |];
        [| discriminate].
      injection H as _ <-. simpl.
      destruct (cart_matches uid iid x); simpl; rewrite (IH z l'' eq_refl);
        reflexivity.
Qed.

Lemma update_first_last :
  forall (A : Type) (p : A -> bool) f l a,
    (forall x, In x l -> p x = false) -> p a = true ->
    update_first p f (l ++ [a]) = Some (f a, (l ++ [f a])%list).
Proof.
  induction l as [| x l IH]; intros a Hl Ha; simpl.
  - rewrite Ha. reflexivity.
  - rewrite (Hl x (or_introl eq_refl)).
    rewrite IH; [reflexivity | | exact Ha].
    intros y Hy. apply Hl. right. exact Hy.
Qed.

Lemma rows_for_created :
  forall s uid iid n q,
    rows_for uid iid (with_cartItems s (cartItems s ++ [mkCartItem n q iid uid]))
    = (rows_for uid iid s ++ [mkCartItem n q iid uid])%list.
Proof.
  intros. unfold rows_for, with_cartItems. cbn [cartItems].
  rewrite filter_app. cbn [filter]. unfold cart_matches at 2. cbn [cart_user cart_item].
  rewrite !String.eqb_refl. reflexivity.
Qed.

Lemma addToCart_keeps_one_row_per_pair :
  forall env s id ctx,
    one_row_per_pair s ->
    one_row_per_pair (final (run env (addToCart id ctx) s)).
Proof.
  intros env s id ctx Hinv. unfold addToCart.
  destruct (truthy_id (userId ctx)) as [uid |]; [| exact Hinv].
  rewrite run_await. cbn [handle]. rewrite final_after.
  destruct (filter (cart_matches uid id) (cartItems s)) as [| c rest] eqn:Hrows.
  - rewrite run_await. cbn [handle].
    destruct (is_some (find_user (where_id uid) s) && is_some (find_item id s))%bool;
      [| exact Hinv].
    rewrite final_after, run_ret. cbn [final].
    intros u i. unfold rows_for, with_cartItems. cbn [cartItems].
    rewrite filter_app, length_app. cbn [filter].
    destruct (cart_matches u i (mkCartItem (new_id env s) default_quantity id uid))
      eqn:Hm.
    + unfold cart_matches in Hm. cbn [cart_user cart_item] in Hm.
      apply andb_true_iff in Hm. destruct Hm as [Hu Hi].
      apply String.eqb_eq in Hu. apply String.eqb_eq in Hi. subst u i.
      rewrite Hrows. cbn. lia.
    + specialize (Hinv u i). unfold rows_for in Hinv. cbn. lia.
  - rewrite run_await. cbn [handle].
    destruct (update_first _ _ (cartItems s)) as [[y l'] |] eqn:Hup;
      [| exact Hinv].
    rewrite final_after, run_ret. cbn [final].
    intros u i. unfold rows_for, with_cartItems. cbn [cartItems].
    rewrite (update_first_quantity_rows _ _ _ _ _ Hup u i). apply Hinv.
Qed.

(** C3: for an authenticated user [uid] and an item [id]:
    from a store with no cart row for the pair (and where user and item
    exist and the store names the new row with an unused identifier), one
    [addToCart] leaves exactly one row for the pair with quantity 1 and a
    second one leaves exactly that one row with quantity 2;
    [addToCart] keeps "at most one row per (user, item)";
    it issues an update to quantity + 1 of the matching row when there is
    one and a creation otherwise. *)
Theorem addToCart_merges_or_creates :
  forall env env' s id ctx uid,
    truthy_id (userId ctx) = Some uid ->
    let s1 := final (run env (addToCart id ctx) s) in
    let s2 := final (run env' (addToCart id ctx) s1) in
    (rows_for uid id s = [] ->
     is_some (find_user (where_id uid) s) = true ->
     is_some (find_item id s) = true ->
     ~ In (new_id env s) (map cart_id (cartItems s)) ->
     rows_for uid id s1 = [mkCartItem (new_id env s) 1 id uid]
     /\ rows_for uid id s2 = [mkCartItem (new_id env s) 2 id uid]
     /\ List.length (cartItems s2) = S (List.length (cartItems s)))
    /\ (one_row_per_pair s -> one_row_per_pair s1)
    /\ (forall c rest, rows_for uid id s = c :: rest ->
          trace (run env (addToCart id ctx) s)
          = [event (db_query_cartItems uid id);
             event (db_mutation_updateCartItem (cart_id c) (cart_quantity c + 1))])
    /\ (rows_for uid id s = [] ->
          trace (run env (addToCart id ctx) s)
          = [event (db_query_cartItems uid id);
             event (db_mutation_createCartItem uid id)]).
Proof.
  intros env env' s id ctx uid Hauth s1 s2.
  split; [| split; [| split]].
  - intros Hnone Hu Hi Hfresh.
    assert (Hs1 : s1 = with_cartItems s
                         (cartItems s ++ [mkCartItem (new_id env s) 1 id uid])).
    { unfold s1, addToCart. rewrite Hauth.
      rewrite run_await. cbn [handle]. unfold rows_for in Hnone. rewrite Hnone.
      rewrite run_await. cbn [handle]. rewrite Hu, Hi. reflexivity. }
    assert (Hrows1 : rows_for uid id s1 = [mkCartItem (new_id env s) 1 id uid]).
    { rewrite Hs1, rows_for_created, Hnone. reflexivity. }
    assert (Hs2 : s2 = with_cartItems s
                         (cartItems s ++ [mkCartItem (new_id env s) 2 id uid])).
    { unfold s2, addToCart. rewrite Hauth.
      rewrite run_await. cbn [handle].
      unfold rows_for in Hrows1. rewrite Hrows1.
      rewrite run_await. cbn [handle cart_id cart_quantity].
      rewrite Hs1. cbn [with_cartItems cartItems].
      rewrite update_first_last.
      - reflexivity.
      - intros x Hx. apply String.eqb_neq. intro E. apply Hfresh.
        rewrite <- E. apply in_map. exact Hx.
      - apply String.eqb_refl. }
    split; [exact Hrows1 |]. split.
    + rewrite Hs2, rows_for_created, Hnone. reflexivity.
    + rewrite Hs2. cbn [with_cartItems cartItems].
      rewrite length_app. cbn. lia.
  - apply addToCart_keeps_one_row_per_pair.
  - intros c rest Hrows. unfold addToCart. rewrite Hauth.
    rewrite run_await. cbn [handle]. unfold rows_for in Hrows. rewrite Hrows.
    rewrite run_await. cbn [handle].
    destruct (update_first _ _ (cartItems s)) as [[y l'] |]; reflexivity.
  - intros Hnone. unfold addToCart. rewrite Hauth.
    rewrite run_await. cbn [handle]. unfold rows_for in Hnone. rewrite Hnone.
    rewrite run_await. cbn [handle].
    destruct (is_some (find_user (where_id uid) s) && is_some (find_item id s))%bool;
      reflexivity.
Qed.

Lemma addToCart_merges_or_creates_witness :
  let W := Sample.world 0 Sample.captures in
  let ctx := Sample.session Sample.alice in
  let s1 := final (run W (addToCart "i3" ctx) Sample.shop) in
  let s2 := final (run W (addToCart "i3" ctx) s1) in
  rows_for "u1" "i3" s1 = [mkCartItem "nu1u2u3i1i2i3c1c2c3" 1 "i3" "u1"]
  /\ rows_for "u1" "i3" s2 = [mkCartItem "nu1u2u3i1i2i3c1c2c3" 2 "i3" "u1"]
  /\ List.length (cartItems s2) = 4%nat.
Proof.
  intros W ctx s1 s2.
  refine (proj1 (addToCart_merges_or_creates W W Sample.shop "i3" ctx "u1" eq_refl)
                eq_refl eq_refl eq_refl _).
  intro H. simpl in H.
  destruct H as [H | [H | [H | []]]]; discriminate H.
Defined.

(** ** Deleting an item: owner, or any of ADMIN and ITEMDELETE *)

Lemma strict_eq_true : forall id u, strict_eq id u = true <-> u = Some id.
Proof.
  intros id [v |]; simpl.
  - rewrite String.eqb_eq. split; [intros -> | intros [= ->]]; reflexivity.
  - split; discriminate.
Qed.

Lemma any_of_true :
  forall needed perms,
    existsb (fun p => includes needed p) perms = true
    <-> exists p, In p perms /\ In p needed.
Proof.
  intros needed perms. rewrite existsb_exists.
  split; intros [p [Hp Hn]]; exists p; (split; [exact Hp |]);
    apply includes_In; exact Hn.
Qed.

Lemma gate_closed_iff :
  forall item ctx actor,
    negb (strict_eq (item_user item) (userId ctx))
    && negb (existsb (fun p => includes ["ADMIN"; "ITEMDELETE"] p)
                     (user_permissions actor)) = true
    <-> ~ may_delete item ctx actor.
Proof.
  intros item ctx actor. unfold may_delete.
  rewrite <- strict_eq_true, <- any_of_true.
  destruct (strict_eq (item_user item) (userId ctx));
    destruct (existsb _ (user_permissions actor)); simpl; split;
    try discriminate; try reflexivity; intro H;
    try (exfalso; apply H; auto; fail).
  intros [E | E]; discriminate.
Qed.

Lemma remove_first_found :
  forall (A : Type) (p : A -> bool) l x,
    find p l = Some x -> exists rest, remove_first p l = Some (x, rest).
Proof.
  induction l as [| y l IH]; intros x H; simpl in *.
  - discriminate.
  - destruct (p y).
    + injection H as <-. eauto.
    + destruct (IH x H) as [rest Hr]. rewrite Hr. eauto.
Qed.

Lemma remove_first_item_gone :
  forall id l x rest,
    NoDup (map item_id l) ->
    remove_first (fun it => String.eqb (item_id it) id) l = Some (x, rest) ->
    find (fun it => String.eqb (item_id it) id) rest = None.
Proof.
  induction l as [| y l IH]; intros x rest Hnd H; simpl in *.
  - discriminate.
  - inversion Hnd as [| ? ? Hy Hl]; subst.
    destruct (String.eqb (item_id y) id) eqn:E.
    + injection H as _ <-. apply String.eqb_eq in E. subst id.
      destruct (find _ l) as [z |] eqn:F; [| reflexivity].
      apply find_some in F. destruct F as [Hz Ez].
      apply String.eqb_eq in Ez. exfalso. apply Hy. rewrite <- Ez.
      apply in_map. exact Hz.
    + destruct (remove_first _ l) as [[z l'] |] eqn:R; [| discriminate].
      injection H as _ <-. simpl. rewrite E. apply (IH z l' Hl eq_refl).
Qed.

(** C6: for an authenticated actor ([ctx.request.user] is set) and an
    existing item, [deleteItem] issues the deletion if and only if the
    actor's id is the owner's id or the actor holds any of ADMIN and
    ITEMDELETE; then the item is returned and, identifiers being unique, it
    is no longer in the store; otherwise the call throws "You don't have
    permissions" and the store is as before. *)
Theorem deleteItem_owner_or_any_permission :
  forall env s id ctx actor item,
    user ctx = Some actor ->
    find_item id s = Some item ->
    let out := run env (deleteItem id ctx) s in
    (existsb (is_deleteItem id) (trace out) = true <-> may_delete item ctx actor)
    /\ (may_delete item ctx actor ->
        result out = inr item
        /\ (unique_item_ids s -> find_item id (final out) = None))
    /\ (~ may_delete item ctx actor ->
        result out = inl (Error "You don't have permissions")
        /\ final out = s).
Proof.
  intros env s id ctx actor item Hactor Hitem.
  unfold deleteItem. rewrite run_await. cbn [handle]. rewrite Hitem, Hactor.
  pose proof (gate_closed_iff item ctx actor) as Hgate.
  destruct (negb (strict_eq (item_user item) (userId ctx))
            && negb (existsb (fun p => includes ["ADMIN"; "ITEMDELETE"] p)
                             (user_permissions actor)))%bool.
  - assert (Hno : ~ may_delete item ctx actor) by (apply Hgate; reflexivity).
    rewrite run_throw. cbn [after result final trace].
    split; [| split].
    + split; [discriminate | intro H; contradiction].
    + intro H; contradiction.
    + intros _. split; reflexivity.
  - assert (Hyes : may_delete item ctx actor).
    { destruct (strict_eq (item_user item) (userId ctx)) eqn:Eo.
      - left. apply strict_eq_true. exact Eo.
      - right. apply any_of_true.
        destruct (existsb _ (user_permissions actor)) eqn:Ep; [reflexivity |].
        exfalso. destruct Hgate as [_ Hg]. 
        assert (Hc : ~ may_delete item ctx actor).
        { unfold may_delete. rewrite <- strict_eq_true, <- any_of_true.
          rewrite Eo, Ep. intros [E | E]; discriminate. }
        specialize (Hg Hc). discriminate. }
    destruct (remove_first_found _ _ _ _ Hitem) as [rest Hrest].
    unfold find_item in Hrest.
    rewrite run_await. cbn [handle]. rewrite Hrest. rewrite run_ret.
    cbn [after result final trace existsb is_deleteItem event projT2].
    rewrite String.eqb_refl.
    split; [| split].
    + split; [intros _; exact Hyes | reflexivity].
    + intros _. split; [reflexivity |].
      intro Hnd. unfold find_item, with_items. cbn [items].
      apply (remove_first_item_gone id (items s) item rest Hnd Hrest).
    + intro H; contradiction.
Qed.

(** C6 at Bob, who holds ADMIN and deletes the scarf that Alice owns. *)
Lemma deleteItem_owner_or_any_permission_witness :
  let out := run (Sample.world 0 Sample.captures)
                 (deleteItem "i3" (Sample.session Sample.bob)) Sample.shop in
  existsb (is_deleteItem "i3") (trace out) = true
  /\ result out = inr Sample.scarf
  /\ find_item "i3" (final out) = None.
Proof.
  intro out.
  destruct (deleteItem_owner_or_any_permission
              (Sample.world 0 Sample.captures) Sample.shop "i3"
              (Sample.session Sample.bob) Sample.bob Sample.scarf
              eq_refl eq_refl) as [Hiff [Hyes _]].
  assert (Hmay : may_delete Sample.scarf (Sample.session Sample.bob) Sample.bob).
  { right. exists "ADMIN". split; simpl; auto. }
  split; [apply Hiff; exact Hmay |].
  destruct (Hyes Hmay) as [Hr Hgone].
  split; [exact Hr |].
  apply Hgone. unfold unique_item_ids. simpl.
  repeat constructor; simpl; intuition discriminate.
Defined.

(** ** Password reset *)

(** C5: [resetPassword] with [password] different from [confirmPassword]
    throws "Passwords don't match!" without having performed any operation:
    the store, and with it the stored token, its expiry and the password,
    is the one before the call, so a later [resetPassword] runs as it would
    have run before. *)
Theorem resetPassword_mismatch_touches_nothing :
  forall APP_SECRET env s args ctx,
    ra_password args <> ra_confirmPassword args ->
    let out := run env (resetPassword APP_SECRET args ctx) s in
    result out = inl (Error "Passwords don't match!")
    /\ trace out = []
    /\ final out = s
    /\ forall env' args' ctx',
         run env' (resetPassword APP_SECRET args' ctx') (final out)
         = run env' (resetPassword APP_SECRET args' ctx') s.
Proof.
  intros APP_SECRET env s args ctx Hneq.
  unfold resetPassword.
  apply String.eqb_neq in Hneq. rewrite Hneq. cbn [negb].
  rewrite run_throw. cbn [result final trace].
  repeat split.
Qed.

(** C5 on the store where Alice holds a token: a mismatched attempt leaves
    the token in place and the matching attempt that follows succeeds. *)
Lemma resetPassword_mismatch_touches_nothing_witness :
  let out := run (Sample.world 60000 Sample.captures)
                 (resetPassword "secret" (mkResetArgs "5f2c9a" "hunter2" "hunter3")
                                Sample.anonymous)
                 issued_at_0 in
  result out = inl (Error "Passwords don't match!")
  /\ trace out = []
  /\ final out = issued_at_0
  /\ exists u,
       result (run (Sample.world 60000 Sample.captures)
                 (resetPassword "secret" (mkResetArgs "5f2c9a" "hunter2" "hunter2")
                                Sample.anonymous) (final out)) = inr u
       /\ user_password u = "$2a$hunter2".
Proof.
  intro out.
  destruct (resetPassword_mismatch_touches_nothing
              "secret" (Sample.world 60000 Sample.captures) issued_at_0
              (mkResetArgs "5f2c9a" "hunter2" "hunter3") Sample.anonymous)
    as [Hr [Ht [Hf Hlater]]].
  - cbn [ra_password ra_confirmPassword]. intro E. discriminate E.
  - split; [exact Hr |]. split; [exact Ht |]. split; [exact Hf |].
    fold out in Hlater. rewrite Hlater.
    eexists. split; reflexivity.
Defined.

(** A token stored with expiry [t0 + 1 hour] passes the filter of
    [resetPassword] at time [t1] exactly when [t1] is at most two hours
    after [t0]. *)
Lemma reset_matches_window :
  forall token t0 t1 u,
    user_resetToken u = Some token ->
    user_resetTokenExpiry u = Some (t0 + 3600000) ->
    reset_matches token (t1 - 3600000) u = true <-> t1 <= t0 + 7200000.
Proof.
  intros token t0 t1 u Ht He. unfold reset_matches. rewrite Ht, He.
  rewrite String.eqb_refl. cbn [andb]. rewrite Z.leb_le. lia.
Qed.

(** [resetPassword] returns a user only when some user of the store holds
    the token with an expiry of at least now minus one hour. *)
Lemma resetPassword_success_needs_expiry :
  forall APP_SECRET env s args ctx updated,
    result (run env (resetPassword APP_SECRET args ctx) s) = inr updated ->
    exists u expiry,
      In u (users s)
      /\ user_resetToken u = Some (ra_resetToken args)
      /\ user_resetTokenExpiry u = Some expiry
      /\ clock env - 3600000 <= expiry.
Proof.
  intros APP_SECRET env s args ctx updated. unfold resetPassword.
  destruct (negb (ra_password args =? ra_confirmPassword args)%string);
    [discriminate |].
  rewrite run_await. cbn [handle]. rewrite result_after.
  rewrite run_await. cbn [handle]. rewrite result_after.
  destruct (filter _ (users s)) as [| u rest] eqn:Hf; [discriminate |].
  intros _.
  assert (Hin : In u (filter (reset_matches (ra_resetToken args)
                                            (clock env - 3600000)) (users s))).
  { rewrite Hf. left. reflexivity. }
  apply filter_In in Hin. destruct Hin as [Hin Hm].
  unfold reset_matches in Hm.
  destruct (user_resetToken u) as [t |] eqn:Et; [| discriminate].
  destruct (user_resetTokenExpiry u) as [e |] eqn:Ee; [| discriminate].
  apply andb_true_iff in Hm. destruct Hm as [Htok Hexp].
  apply String.eqb_eq in Htok. apply Z.leb_le in Hexp. subst t.
  exists u, e. repeat split; assumption.
Qed.

(** C4: a reset token is to be refused once its stored expiry, one hour
    after issuance, has passed; [resetPassword] does not refuse it.
    [requestReset] at time 0 stores the token with expiry 3600000;
    [resetPassword] with that token one millisecond after the expiry, and
    still two hours after issuance, returns the user with the new
    password; it throws "This token is either invalid or expired!" only
    from one millisecond past two hours. *)
Theorem resetPassword_accepts_token_past_expiry :
  let reset_at := fun now =>
    result (run (Sample.world now Sample.captures)
                (resetPassword "secret" (mkResetArgs "5f2c9a" "hunter2" "hunter2")
                               Sample.anonymous)
                issued_at_0) in
  let renewed :=
    mkUser "u1" "Alice" "alice@shop.io" "$2a$hunter2" ["USER"] None None in
  find_user (where_email "alice@shop.io") issued_at_0
  = Some (mkUser "u1" "Alice" "alice@shop.io" "$2a$10$alice" ["USER"]
                 (Some "5f2c9a") (Some 3600000))
  /\ reset_at 3600001 = inr renewed
  /\ reset_at 7200000 = inr renewed
  /\ reset_at 7200001 = inl (Error "This token is either invalid or expired!").
Proof. repeat split. Qed.

(** ** Looking a user up by email *)

(** What [requestReset] does: it throws the not-found error, after the one
    query and with the store as before, when no user has the email as it
    was given, and it does not throw that error when one has. *)
Lemma requestReset_not_found_exactly :
  forall FRONTEND_URL makeANiceEmail env s email ctx,
    let out := run env (requestReset FRONTEND_URL makeANiceEmail email ctx) s in
    let not_found := Error ("No such user found for email " ++ email) in
    (find_user (where_email email) s = None ->
     out = mkOutcome (inl not_found) s [event (db_query_user (where_email email))])
    /\ (forall u, find_user (where_email email) s = Some u ->
        result out <> inl not_found).
Proof.
  intros F mk env s email ctx out not_found. unfold out, requestReset.
  rewrite run_await. cbn [handle]. split.
  - intros ->. reflexivity.
  - intros u ->. rewrite result_after.
    rewrite run_await. cbn [handle]. rewrite result_after.
    rewrite run_await. cbn [handle]. rewrite result_after.
    rewrite run_await. cbn [handle].
    destruct (update_first _ _ (users s)) as [[v l] |]; [| discriminate].
    rewrite result_after. rewrite run_await. cbn [handle].
    destruct (mail_accepted env (user_email u)); discriminate.
Qed.

(** C8: the email is to be lower-cased before the lookup of
    [requestReset]; it is not.  Alice is stored under "alice@shop.io",
    which is the lower-cased "Alice@shop.io", and [requestReset] for
    "Alice@shop.io" queries the store for the email as typed and throws
    not-found.  The same after [signup], which does lower-case the email
    it stores: Dave signs up as "Dave@Shop.io" and cannot request a reset
    under the email he typed. *)
Theorem requestReset_looks_up_email_as_typed :
  let W := Sample.world 0 Sample.captures in
  let reset := fun email s =>
    run W (requestReset "https://shop.io" (fun text => text) email
                        Sample.anonymous) s in
  let signed_up :=
    final (run W (signup "secret" (mkSignupArgs "Dave@Shop.io" "Dave" "pw")
                         Sample.anonymous) Sample.shop) in
  find_user (where_email (toLowerCase "Alice@shop.io")) Sample.shop
  = Some Sample.alice
  /\ reset "Alice@shop.io" Sample.shop
     = mkOutcome (inl (Error "No such user found for email Alice@shop.io"))
                 Sample.shop
                 [event (db_query_user (where_email "Alice@shop.io"))]
  /\ is_some (find_user (where_email (toLowerCase "Dave@Shop.io")) signed_up) = true
  /\ result (reset "Dave@Shop.io" signed_up)
     = inl (Error "No such user found for email Dave@Shop.io")
  /\ result (reset "dave@shop.io" signed_up) = inr "Reset sent!".
Proof. repeat split. Qed.

(** ** Resolvers without a session *)

(** C7 as stated fails: [requestReset] has no session check; without a
    session it finds Alice, writes her token and answers "Reset sent!". *)
Lemma requestReset_serves_anonymous_caller : ~ every_mutation_requires_session.
Proof.
  intro H.
  destruct (H "secret" "https://shop.io" (fun text => text))
    as [_ [_ [_ [_ [_ [_ [_ [Hreset _]]]]]]]].
  destruct (Hreset "alice@shop.io" (Sample.world 0 Sample.captures) Sample.shop
                   Sample.anonymous eq_refl) as [[e He] _].
  discriminate He.
Qed.

(** The three mutations that look at the session late or not at all:
    without a session, [updateItem] updates the item, [removeFromCart] and
    [deleteItem] query the store before they fail. *)
Lemma unguarded_mutations_reach_store :
  let W := Sample.world 0 Sample.captures in
  result (run W (updateItem "i1" (mkItemUpdates None None (Some 1))
                            Sample.anonymous) Sample.shop)
  = inr (mkItem "i1" "Shoes" "Red shoes" "s.jpg" "S.jpg" 1 "u2")
  /\ run W (removeFromCart "c1" Sample.anonymous) Sample.shop
     = mkOutcome (inl (Error "Operation unallowed")) Sample.shop
                 [event (db_query_cartItem "c1")]
  /\ run W (deleteItem "i1" Sample.anonymous) Sample.shop
     = mkOutcome (inl TypeError) Sample.shop [event (db_query_item "i1")].
Proof. repeat split. Qed.

(** C7, amended: [createItem], [updatePermissions], [addToCart] and
    [createOrder] throw their login error to a caller without [userId]
    before any operation, the store untouched; [requestReset] and
    [resetPassword] never read the session, so they run for a caller
    without one as for any other. *)
Theorem guarded_mutations_reject_unauthenticated :
  forall env s ctx,
    truthy_id (userId ctx) = None ->
    (forall args,
        run env (createItem args ctx) s
        = mkOutcome (inl (Error "You need to login")) s [])
    /\ (forall permissions target,
        run env (updatePermissions permissions target ctx) s
        = mkOutcome (inl (Error "You must be logged in!")) s [])
    /\ (forall id,
        run env (addToCart id ctx) s
        = mkOutcome (inl (Error "You must be logged in!")) s [])
    /\ (forall token,
        run env (createOrder token ctx) s
        = mkOutcome (inl (Error "You must be signed in to complete this order.")) s [])
    /\ (forall FRONTEND_URL makeANiceEmail email ctx',
        requestReset FRONTEND_URL makeANiceEmail email ctx
        = requestReset FRONTEND_URL makeANiceEmail email ctx')
    /\ (forall APP_SECRET args ctx',
        resetPassword APP_SECRET args ctx = resetPassword APP_SECRET args ctx').
Proof.
  intros env s ctx Hanon.
  unfold createItem, updatePermissions, addToCart, createOrder.
  rewrite Hanon. repeat split.
Qed.

Lemma guarded_mutations_reject_unauthenticated_witness :
  run (Sample.world 0 Sample.captures)
      (createOrder "tok_visa" Sample.anonymous) Sample.shop
  = mkOutcome (inl (Error "You must be signed in to complete this order."))
              Sample.shop [].
Proof.
  destruct (guarded_mutations_reject_unauthenticated
              (Sample.world 0 Sample.captures) Sample.shop Sample.anonymous
              eq_refl) as [_ [_ [_ [Horder _]]]].
  exact (Horder "tok_visa").
Defined.

(** C10: without [userId] in the request, [me] returns [null], with no
    error and no operation, where the other queries of [Query.js] that
    look at the session ([users], [order], [orders]) throw. *)
Theorem me_without_session_is_null :
  forall env s ctx,
    truthy_id (userId ctx) = None ->
    run env (me ctx) s = mkOutcome (inr None) s []
    /\ result (run env (users_query ctx) s) = inl (Error "You need to login!")
    /\ (forall id,
          result (run env (order_query id ctx) s) = inl (Error "You need to login!"))
    /\ result (run env (orders_query ctx) s) = inl (Error "you must be signed in!").
Proof.
  intros env s ctx Hanon.
  unfold me, users_query, order_query, orders_query.
  rewrite Hanon. repeat split.
Qed.

Lemma me_without_session_is_null_witness :
  run (Sample.world 0 Sample.captures) (me Sample.anonymous) Sample.shop
  = mkOutcome (inr None) Sample.shop [].
Proof.
  exact (proj1 (me_without_session_is_null
                  (Sample.world 0 Sample.captures) Sample.shop Sample.anonymous
                  eq_refl)).
Defined.

(** * Beyond the claims: the rest of the resolvers *)

(** ** Lists with one element replaced or removed *)

Lemma find_split :
  forall (A : Type) (p : A -> bool) l u,
    find p l = Some u ->
    exists pre post,
      l = (pre ++ u :: post)%list
      /\ (forall x, In x pre -> p x = false)
      /\ p u = true.
Proof.
  induction l as [| y l IH]; intros u H; simpl in H.
  - discriminate.
  - destruct (p y) eqn:E.
    + injection H as <-. exists [], l. repeat split; auto.
      intros x [].
    + destruct (IH u H) as [pre [post [Hl [Hpre Hu]]]].
      exists (y :: pre), post. subst l. repeat split; auto.
      intros x [<- | Hx]; auto.
Qed.

Lemma find_skip :
  forall (A : Type) (p : A -> bool) pre l,
    (forall x, In x pre -> p x = false) ->
    find p (pre ++ l) = find p l.
Proof.
  induction pre as [| y pre IH]; intros l H; simpl.
  - reflexivity.
  - rewrite (H y (or_introl eq_refl)). apply IH.
    intros x Hx. apply H. right. exact Hx.
Qed.

Lemma update_first_at :
  forall (A : Type) (p : A -> bool) f pre u post,
    (forall x, In x pre -> p x = false) -> p u = true ->
    update_first p f (pre ++ u :: post)
    = Some (f u, (pre ++ f u :: post)%list).
Proof.
  induction pre as [| y pre IH]; intros u post Hpre Hu; simpl.
  - rewrite Hu. reflexivity.
  - rewrite (Hpre y (or_introl eq_refl)).
    rewrite IH; [reflexivity | | exact Hu].
    intros x Hx. apply Hpre. right. exact Hx.
Qed.

Lemma remove_first_at :
  forall (A : Type) (p : A -> bool) pre u post,
    (forall x, In x pre -> p x = false) -> p u = true ->
    remove_first p (pre ++ u :: post) = Some (u, (pre ++ post)%list).
Proof.
  induction pre as [| y pre IH]; intros u post Hpre Hu; simpl.
  - rewrite Hu. reflexivity.
  - rewrite (Hpre y (or_introl eq_refl)).
    rewrite IH; [reflexivity | | exact Hu].
    intros x Hx. apply Hpre. right. exact Hx.
Qed.

Lemma update_first_missing :
  forall (A : Type) (p : A -> bool) f l,
    find p l = None -> update_first p f l = None.
Proof.
  induction l as [| y l IH]; intro H; simpl in *.
  - reflexivity.
  - destruct (p y); [discriminate |]. rewrite (IH H). reflexivity.
Qed.

Lemma filter_nothing :
  forall (A : Type) (p : A -> bool) l,
    (forall x, In x l -> p x = false) -> filter p l = [].
Proof.
  induction l as [| y l IH]; intro H; simpl.
  - reflexivity.
  - rewrite (H y (or_introl eq_refl)). apply IH.
    intros x Hx. apply H. right. exact Hx.
Qed.

Lemma find_none_all :
  forall (A : Type) (p : A -> bool) l,
    find p l = None -> forall x, In x l -> p x = false.
Proof.
  intros A p l H x Hx. apply (find_none p l H x Hx).
Qed.

(** ** Accounts: [signup] and [signin] *)

Lemma lower_ascii_idempotent :
  forall c, lower_ascii (lower_ascii c) = lower_ascii c.
Proof.
  intros [[|] [|] [|] [|] [|] [|] [|] [|]]; reflexivity.
Qed.

Lemma toLowerCase_idempotent :
  forall e, toLowerCase (toLowerCase e) = toLowerCase e.
Proof.
  induction e as [| c e IH]; simpl.
  - reflexivity.
  - rewrite lower_ascii_idempotent, IH. reflexivity.
Qed.

Lemma signup_run :
  forall APP_SECRET env s args ctx,
    find_user (where_email (toLowerCase (su_email args))) s = None ->
    let u := mkUser (new_id env s) (su_name args) (toLowerCase (su_email args))
                    (hash_outcome env (su_password args) 10) ["USER"] None None in
    run env (signup APP_SECRET args ctx) s
    = mkOutcome (inr u) (with_users s (users s ++ [u]))
        [event (bcrypt_hash (su_password args) 10);
         event (db_mutation_createUser
                  (mkSignupArgs (toLowerCase (su_email args)) (su_name args)
                                (hash_outcome env (su_password args) 10))
                  ["USER"]);
         (if selects_id (info ctx)
          then event (jwt_sign (new_id env s) APP_SECRET)
          else event (jwt_sign_undefined APP_SECRET));
         event (res_cookie "token"
                  (if selects_id (info ctx)
                   then signature env (new_id env s) APP_SECRET
                   else signature_undefined env APP_SECRET)
                  true 31536000000)].
Proof.
  intros APP_SECRET env s args ctx Hfree. unfold signup.
  rewrite run_await. cbn [handle].
  rewrite run_await. cbn [handle su_email su_name su_password].
  rewrite Hfree. cbn [is_some].
  destruct (selects_id (info ctx)).
  - rewrite run_await. cbn [handle user_id].
    rewrite run_await. cbn [handle]. rewrite run_ret.
    reflexivity.
  - rewrite run_await. cbn [handle user_id].
    rewrite run_await. cbn [handle]. rewrite run_ret.
    reflexivity.
Qed.

(** X1: for an email of ASCII characters that no user holds in lower case,
    [signup] creates one user, last in the table, with the lower-cased
    email, the bcrypt hash of the password at cost 10 in place of the
    password, the permissions [USER] and no reset token; the other tables
    are untouched.  The last operation sets the cookie [token], http-only,
    for 31 536 000 000 ms: to the signed id of the new user when the
    client's selection has [id], and to the signature of a payload whose
    [userId] is [undefined] when it has not, since [user.id] is read from
    the node the store returns for [info]. *)
Theorem signup_registers_lowercased_hashed_user :
  forall APP_SECRET env s args ctx,
    ascii_only (su_email args) = true ->
    find_user (where_email (toLowerCase (su_email args))) s = None ->
    let out := run env (signup APP_SECRET args ctx) s in
    let u := mkUser (new_id env s) (su_name args) (toLowerCase (su_email args))
                    (hash_outcome env (su_password args) 10) ["USER"] None None in
    result out = inr u
    /\ final out = with_users s (users s ++ [u])
    /\ toLowerCase (user_email u) = user_email u
    /\ (selects_id (info ctx) = true ->
        trace out
        = [event (bcrypt_hash (su_password args) 10);
           event (db_mutation_createUser
                    (mkSignupArgs (toLowerCase (su_email args)) (su_name args)
                                  (hash_outcome env (su_password args) 10))
                    ["USER"]);
           event (jwt_sign (new_id env s) APP_SECRET);
           event (res_cookie "token" (signature env (new_id env s) APP_SECRET)
                             true 31536000000)])
    /\ (selects_id (info ctx) = false ->
        trace out
        = [event (bcrypt_hash (su_password args) 10);
           event (db_mutation_createUser
                    (mkSignupArgs (toLowerCase (su_email args)) (su_name args)
                                  (hash_outcome env (su_password args) 10))
                    ["USER"]);
           event (jwt_sign_undefined APP_SECRET);
           event (res_cookie "token" (signature_undefined env APP_SECRET)
                             true 31536000000)]).
Proof.
  intros APP_SECRET env s args ctx _ Hfree out u.
  unfold out. rewrite (signup_run APP_SECRET env s args ctx Hfree).
  cbn [result final trace].
  split; [reflexivity |]. split; [reflexivity |].
  split; [apply toLowerCase_idempotent |].
  split; intros ->; reflexivity.
Qed.

Lemma signup_registers_lowercased_hashed_user_witness :
  let out := run (Sample.world 0 Sample.captures)
                 (signup "secret" (mkSignupArgs "Dave@Shop.io" "Dave" "pw")
                         Sample.anonymous) Sample.shop in
  result out
  = inr (mkUser "nu1u2u3i1i2i3c1c2c3" "Dave" "dave@shop.io" "$2a$pw" ["USER"]
                None None).
Proof.
  exact (proj1 (signup_registers_lowercased_hashed_user
                  "secret" (Sample.world 0 Sample.captures) Sample.shop
                  (mkSignupArgs "Dave@Shop.io" "Dave" "pw") Sample.anonymous
                  eq_refl eq_refl)).
Defined.

(** X2: [signin] never changes the store and issues no store mutation;
    an unknown email and a wrong password give the same error, "Incorrect
    email or password", so the answer does not tell whether the email is
    registered; and [signin] returns a user only if that user is stored
    under exactly the email given and the password compares to its hash. *)
Theorem signin_reads_only_and_fails_alike :
  forall APP_SECRET bcrypt_compare env s email password ctx,
    let out := run env (signin APP_SECRET bcrypt_compare email password ctx) s in
    final out = s
    /\ no_store_write out
    /\ (find_user (where_email email) s = None ->
        result out = inl (Error "Incorrect email or password"))
    /\ (forall u, find_user (where_email email) s = Some u ->
        bcrypt_compare password (user_password u) = false ->
        result out = inl (Error "Incorrect email or password"))
    /\ (forall u, result out = inr u ->
        In u (users s) /\ user_email u = email
        /\ bcrypt_compare password (user_password u) = true).
Proof.
  intros APP_SECRET cmp env s email password ctx. unfold signin, no_store_write.
  rewrite run_await. cbn [handle].
  destruct (find_user (where_email email) s) as [u |] eqn:Hu.
  - destruct (cmp password (user_password u)) eqn:Hc; cbn [negb].
    + rewrite run_await. cbn [handle]. rewrite run_await. cbn [handle].
      rewrite run_ret. cbn [after result final trace].
      split; [reflexivity |]. split; [reflexivity |].
      split; [discriminate |]. split.
      * intros v [= <-] H. rewrite Hc in H. discriminate H.
      * intros v [= <-]. unfold find_user in Hu.
        apply find_some in Hu. destruct Hu as [Hin Hm].
        cbn [user_matches] in Hm. apply String.eqb_eq in Hm.
        split; [exact Hin |]. split; [exact Hm | exact Hc].
    + rewrite run_throw. cbn [after result final trace].
      split; [reflexivity |]. split; [reflexivity |].
      split; [discriminate |]. split; [reflexivity | discriminate].
  - rewrite run_throw. cbn [after result final trace].
    split; [reflexivity |]. split; [reflexivity |].
    split; [reflexivity |]. split; discriminate.
Qed.

(** X3: for an email of ASCII characters, an account made by [signup]
    signs in with the lower-cased email and the password, when
    [bcrypt.compare] accepts the password against the hash [signup]
    stored; [signin] then returns the user [signup] returned.  Under the
    email as it was typed, when it has an upper-case letter (it differs
    from its lower-cased form) and nobody else holds it, [signin] finds no
    user. *)
Theorem signup_then_signin :
  forall APP_SECRET bcrypt_compare env env' s args ctx ctx',
    ascii_only (su_email args) = true ->
    find_user (where_email (toLowerCase (su_email args))) s = None ->
    bcrypt_compare (su_password args) (hash_outcome env (su_password args) 10)
    = true ->
    let registered := run env (signup APP_SECRET args ctx) s in
    let signin_as := fun email =>
      result (run env' (signin APP_SECRET bcrypt_compare email
                               (su_password args) ctx') (final registered)) in
    signin_as (toLowerCase (su_email args)) = result registered
    /\ (exists u, result registered = inr u)
    /\ (toLowerCase (su_email args) <> su_email args ->
        find_user (where_email (su_email args)) s = None ->
        signin_as (su_email args) = inl (Error "Incorrect email or password")).
Proof.
  intros APP_SECRET cmp env env' s args ctx ctx' _ Hfree Hcmp registered signin_as.
  pose proof (signup_run APP_SECRET env s args ctx Hfree) as Hrun.
  cbv zeta in Hrun.
  pose proof (f_equal result Hrun) as Hr. pose proof (f_equal final Hrun) as Hf.
  cbn [result final] in Hr, Hf. clear Hrun.
  fold registered in Hr, Hf.
  unfold signin_as. rewrite Hr, Hf. unfold signin.
  split; [| split].
  - rewrite run_await. cbn [handle]. unfold find_user, with_users. cbn [users].
    rewrite find_skip by (apply find_none_all; exact Hfree).
    cbn [find user_matches user_email]. rewrite String.eqb_refl.
    cbn [user_password]. rewrite Hcmp. cbn [negb].
    rewrite run_await. cbn [handle]. rewrite run_await. cbn [handle].
    rewrite run_ret. reflexivity.
  - eauto.
  - intros Hcase Hnobody.
    rewrite run_await. cbn [handle]. unfold find_user, with_users. cbn [users].
    rewrite find_skip by (apply find_none_all; exact Hnobody).
    cbn [find user_matches user_email].
    apply String.eqb_neq in Hcase. rewrite Hcase. reflexivity.
Qed.

Lemma signup_then_signin_witness :
  let W := Sample.world 0 Sample.captures in
  let cmp := fun plain hashed => String.eqb ("$2a$" ++ plain) hashed in
  let registered :=
    run W (signup "secret" (mkSignupArgs "Dave@Shop.io" "Dave" "pw")
                  Sample.anonymous) Sample.shop in
  result (run W (signin "secret" cmp "dave@shop.io" "pw" Sample.anonymous)
              (final registered)) = result registered
  /\ result (run W (signin "secret" cmp "Dave@Shop.io" "pw" Sample.anonymous)
                 (final registered))
     = inl (Error "Incorrect email or password").
Proof.
  intros W cmp registered.
  destruct (signup_then_signin
              "secret" cmp W W Sample.shop
              (mkSignupArgs "Dave@Shop.io" "Dave" "pw")
              Sample.anonymous Sample.anonymous eq_refl eq_refl eq_refl)
    as [Hlower [_ Htyped]].
  split; [exact Hlower |].
  apply Htyped; [cbn; intro E; discriminate E | reflexivity].
Defined.

Lemma signin_reads_only_and_fails_alike_witness :
  let W := Sample.world 0 Sample.captures in
  let cmp := fun plain hashed => String.eqb ("$2a$" ++ plain) hashed in
  result (run W (signin "secret" cmp "nobody@shop.io" "pw" Sample.anonymous)
              Sample.shop)
  = inl (Error "Incorrect email or password")
  /\ result (run W (signin "secret" cmp "alice@shop.io" "pw" Sample.anonymous)
                 Sample.shop)
     = inl (Error "Incorrect email or password").
Proof.
  intros W cmp. split.
  - destruct (signin_reads_only_and_fails_alike
                "secret" cmp W Sample.shop "nobody@shop.io" "pw" Sample.anonymous)
      as [_ [_ [Hunknown _]]].
    apply Hunknown. reflexivity.
  - destruct (signin_reads_only_and_fails_alike
                "secret" cmp W Sample.shop "alice@shop.io" "pw" Sample.anonymous)
      as [_ [_ [_ [Hwrong _]]]].
    apply (Hwrong Sample.alice); reflexivity.
Defined.

(** ** The life of a reset token *)

Lemma reset_matches_other_token :
  forall token bound v,
    user_resetToken v <> Some token -> reset_matches token bound v = false.
Proof.
  intros token bound v H. unfold reset_matches.
  destruct (user_resetToken v) as [t |]; [| reflexivity].
  destruct (user_resetTokenExpiry v); [| reflexivity].
  destruct (String.eqb t token) eqn:E; [| reflexivity].
  apply String.eqb_eq in E. subst t. exfalso. apply H. reflexivity.
Qed.

Lemma requestReset_final :
  forall FRONTEND_URL makeANiceEmail env s email ctx u,
    find_user (where_email email) s = Some u ->
    exists pre post,
      users s = (pre ++ u :: post)%list
      /\ (forall x, In x pre -> user_matches (where_email email) x = false)
      /\ user_email u = email
      /\ final (run env (requestReset FRONTEND_URL makeANiceEmail email ctx) s)
         = with_users s (pre ++ holding_token u (random_hex env 20)
                                              (clock env + 3600000) :: post)
      /\ result (run env (requestReset FRONTEND_URL makeANiceEmail email ctx) s)
         = if mail_accepted env (user_email u)
           then inr "Reset sent!" else inl MailError.
Proof.
  intros F mk env s email ctx u Hu.
  destruct (find_split _ _ _ _ Hu) as [pre [post [Hl [Hpre Hm]]]].
  exists pre, post. split; [exact Hl |]. split; [exact Hpre |].
  assert (He : user_email u = email).
  { cbn [user_matches] in Hm. apply String.eqb_eq in Hm. exact Hm. }
  split; [exact He |].
  unfold requestReset.
  rewrite run_await. cbn [handle]. rewrite Hu.
  rewrite run_await. cbn [handle].
  rewrite run_await. cbn [handle].
  rewrite run_await. cbn [handle].
  rewrite Hl. rewrite (update_first_at _ _ _ pre u post Hpre Hm).
  rewrite run_await. cbn [handle].
  destruct (mail_accepted env (user_email u)); split; reflexivity.
Qed.

(** X4: when a user has the email, [requestReset] writes the random token
    and the expiry now + 3 600 000 ms on the first user with that email and
    changes nothing else in the store: the table of users is the one
    before with that one user replaced, where he stood, by himself holding
    the token, and the other tables are the ones before.  The answer is
    "Reset sent!" when the mail transport accepts the mail, and the
    transport's rejection when it does not, with the token written all the
    same. *)
Theorem requestReset_writes_token_whatever_the_mail :
  forall FRONTEND_URL makeANiceEmail env s email ctx u,
    find_user (where_email email) s = Some u ->
    let out := run env (requestReset FRONTEND_URL makeANiceEmail email ctx) s in
    let u' := holding_token u (random_hex env 20) (clock env + 3600000) in
    find_user (where_email email) (final out) = Some u'
    /\ (exists pre post,
          users s = (pre ++ u :: post)%list
          /\ (forall x, In x pre -> user_email x <> email)
          /\ users (final out) = (pre ++ u' :: post)%list)
    /\ List.length (users (final out)) = List.length (users s)
    /\ items (final out) = items s
    /\ cartItems (final out) = cartItems s
    /\ orders (final out) = orders s
    /\ (mail_accepted env (user_email u) = true -> result out = inr "Reset sent!")
    /\ (mail_accepted env (user_email u) = false -> result out = inl MailError).
Proof.
  intros F mk env s email ctx u Hu out u'.
  destruct (requestReset_final F mk env s email ctx u Hu)
    as [pre [post [Hl [Hpre [He [Hf Hr]]]]]].
  fold out in Hf, Hr. rewrite Hf, Hr. unfold with_users. cbn [users items cartItems orders].
  split.
  - unfold find_user. cbn [users]. rewrite (find_skip _ _ pre _ Hpre).
    cbn [find user_matches]. unfold u', holding_token at 1. cbn [user_email].
    rewrite He, String.eqb_refl. reflexivity.
  - split.
    { exists pre, post. split; [exact Hl |]. split; [| reflexivity].
      intros x Hx E. specialize (Hpre x Hx). cbn [user_matches] in Hpre.
      apply String.eqb_neq in Hpre. contradiction. }
    split; [rewrite Hl, !length_app; reflexivity |].
    repeat (split; [reflexivity |]).
    split; intros ->; reflexivity.
Qed.

Lemma requestReset_writes_token_whatever_the_mail_witness :
  let W := mkEnv Sample.next_id 0 Sample.captures (fun plain _ => plain)
                 (fun _ => "5f2c9a") (fun _ => false) (fun uid _ => uid)
                 (fun secret => secret) in
  let out := run W (requestReset "https://shop.io" (fun text => text)
                                 "bob@shop.io" Sample.anonymous) Sample.shop in
  find_user (where_email "bob@shop.io") (final out)
  = Some (holding_token Sample.bob "5f2c9a" 3600000)
  /\ (exists pre post,
        users Sample.shop = (pre ++ Sample.bob :: post)%list
        /\ users (final out)
           = (pre ++ holding_token Sample.bob "5f2c9a" 3600000 :: post)%list)
  /\ result out = inl MailError.
Proof.
  intros W out.
  destruct (requestReset_writes_token_whatever_the_mail
              "https://shop.io" (fun text => text) W Sample.shop "bob@shop.io"
              Sample.anonymous Sample.bob eq_refl)
    as [Hfound [[pre [post [Hl [_ Hl']]]] [_ [_ [_ [_ [_ Hfail]]]]]]].
  split; [exact Hfound |]. split.
  - exists pre, post. split; [exact Hl | exact Hl'].
  - apply Hfail; reflexivity.
Defined.

Lemma resetPassword_no_match_run :
  forall APP_SECRET env s token password ctx,
    (forall v, In v (users s) ->
       reset_matches token (clock env - 3600000) v = false) ->
    run env (resetPassword APP_SECRET (mkResetArgs token password password) ctx) s
    = mkOutcome (inl (Error "This token is either invalid or expired!")) s
                [event Date_now;
                 event (db_query_users_reset token (clock env - 3600000))].
Proof.
  intros SECRET env s token password ctx Hnone. unfold resetPassword.
  cbn [ra_password ra_confirmPassword ra_resetToken].
  rewrite String.eqb_refl. cbn [negb].
  rewrite run_await. cbn [handle].
  rewrite run_await. cbn [handle].
  rewrite (filter_nothing _ _ _ Hnone). reflexivity.
Qed.

(** X5: a token that no user holds is refused at any time: [resetPassword]
    throws "This token is either invalid or expired!" after reading the
    clock and querying the store, and nothing is hashed, written or set as
    a cookie. *)
Theorem resetPassword_refuses_unknown_token :
  forall APP_SECRET env s token password ctx,
    nobody_holds token s ->
    run env (resetPassword APP_SECRET (mkResetArgs token password password) ctx) s
    = mkOutcome (inl (Error "This token is either invalid or expired!")) s
                [event Date_now;
                 event (db_query_users_reset token (clock env - 3600000))].
Proof.
  intros SECRET env s token password ctx Hnobody.
  apply resetPassword_no_match_run.
  intros v Hv. apply reset_matches_other_token. apply Hnobody. exact Hv.
Qed.

Lemma resetPassword_refuses_unknown_token_witness :
  result (run (Sample.world 5 Sample.captures)
              (resetPassword "secret" (mkResetArgs "0000" "pw2" "pw2")
                             Sample.anonymous) Sample.shop)
  = inl (Error "This token is either invalid or expired!").
Proof.
  rewrite (resetPassword_refuses_unknown_token
             "secret" (Sample.world 5 Sample.captures) Sample.shop "0000" "pw2"
             Sample.anonymous).
  - reflexivity.
  - intros v Hv. simpl in Hv.
    destruct Hv as [<- | [<- | [<- | []]]]; discriminate.
Defined.

Lemma issued_token_accepted_run :
  forall FRONTEND_URL makeANiceEmail APP_SECRET env env' s email ctx ctx' u password,
    find_user (where_email email) s = Some u ->
    nobody_holds (random_hex env 20) s ->
    clock env' <= clock env + 7200000 ->
    exists pre post,
      users s = (pre ++ u :: post)%list
      /\ (forall x, In x pre -> user_matches (where_email email) x = false)
      /\ user_email u = email
      /\ run env' (resetPassword APP_SECRET
                     (mkResetArgs (random_hex env 20) password password) ctx')
             (final (run env (requestReset FRONTEND_URL makeANiceEmail email ctx) s))
         = mkOutcome (inr (with_password u (hash_outcome env' password 10)))
                     (with_users s (pre ++ with_password u (hash_outcome env' password 10)
                                        :: post))
                     [event Date_now;
                      event (db_query_users_reset (random_hex env 20)
                                                  (clock env' - 3600000));
                      event (bcrypt_hash password 10);
                      event (db_mutation_updateUser (where_email (user_email u))
                               (mkUserData (Some (hash_outcome env' password 10))
                                           (Some None) (Some None) None));
                      event (jwt_sign (user_id u) APP_SECRET);
                      event (res_cookie "token"
                               (signature env' (user_id u) APP_SECRET)
                               true 31536000000)].
Proof.
  intros F mk SECRET env env' s email ctx ctx' u password Hu Hnobody Hclock.
  destruct (requestReset_final F mk env s email ctx u Hu)
    as [pre [post [Hl [Hpre [He [Hf _]]]]]].
  exists pre, post.
  split; [exact Hl |]. split; [exact Hpre |]. split; [exact He |].
  rewrite Hf. unfold resetPassword.
  cbn [ra_password ra_confirmPassword ra_resetToken].
  rewrite String.eqb_refl. cbn [negb].
  rewrite run_await. cbn [handle].
  rewrite run_await. cbn [handle].
  unfold with_users at 1. cbn [users].
  rewrite filter_app. cbn [filter].
  rewrite (filter_nothing _ _ pre).
  2:{ intros x Hx. apply reset_matches_other_token. apply Hnobody.
      rewrite Hl. apply in_or_app. left. exact Hx. }
  rewrite (filter_nothing _ _ post).
  2:{ intros x Hx. apply reset_matches_other_token. apply Hnobody.
      rewrite Hl. apply in_or_app. right. right. exact Hx. }
  unfold reset_matches at 1, holding_token at 1 2.
  cbn [user_resetToken user_resetTokenExpiry].
  rewrite String.eqb_refl. cbn [andb app].
  replace (clock env' - 3600000 <=? clock env + 3600000) with true
    by (symmetry; apply Z.leb_le; lia).
  rewrite run_await. cbn [handle].
  rewrite run_await. cbn [handle].
  unfold with_users at 1. cbn [users].
  unfold holding_token at 1. cbn [user_email].
  rewrite He.
  rewrite (update_first_at _ _ _ pre _ post Hpre)
    by (cbn [user_matches holding_token user_email]; rewrite He;
        apply String.eqb_refl).
  unfold generateJWT. cbn [bind].
  rewrite run_await. cbn [handle].
  rewrite run_await. cbn [handle]. rewrite run_ret.
  subst email. reflexivity.
Qed.

(** X6: a token that nobody held before, issued by [requestReset] at time
    [t0], is taken by [resetPassword] at any time up to [t0] + 7 200 000 ms:
    the user comes back with the hash of the new password and without
    token or expiry, is stored so, and is signed in by the cookie [token]
    that [generateJWT] sets last.  After that time the call throws
    "This token is either invalid or expired!" and the store stays. *)
Theorem issued_token_resets_password_for_two_hours :
  forall FRONTEND_URL makeANiceEmail APP_SECRET env env' s email ctx ctx' u password,
    find_user (where_email email) s = Some u ->
    nobody_holds (random_hex env 20) s ->
    let issued :=
      final (run env (requestReset FRONTEND_URL makeANiceEmail email ctx) s) in
    let out :=
      run env' (resetPassword APP_SECRET
                  (mkResetArgs (random_hex env 20) password password) ctx')
          issued in
    let renewed := with_password u (hash_outcome env' password 10) in
    (clock env' <= clock env + 7200000 ->
     result out = inr renewed
     /\ nth_error (trace out) 5
        = Some (event (res_cookie "token" (signature env' (user_id u) APP_SECRET)
                                  true 31536000000))
     /\ find_user (where_email email) (final out) = Some renewed)
    /\ (clock env + 7200000 < clock env' ->
        result out = inl (Error "This token is either invalid or expired!")
        /\ final out = issued).
Proof.
  intros F mk SECRET env env' s email ctx ctx' u password Hu Hnobody issued out renewed.
  destruct (requestReset_final F mk env s email ctx u Hu)
    as [pre [post [Hl [Hpre [He [Hf _]]]]]].
  fold issued in Hf.
  assert (Hout : forall x, In x pre \/ In x post ->
                 reset_matches (random_hex env 20) (clock env' - 3600000) x = false).
  { intros x Hx. apply reset_matches_other_token. apply Hnobody.
    rewrite Hl. apply in_or_app. destruct Hx; [left | right; right]; assumption. }
  assert (Hfilter :
    filter (reset_matches (random_hex env 20) (clock env' - 3600000)) (users issued)
    = if clock env' - 3600000 <=? clock env + 3600000
      then [holding_token u (random_hex env 20) (clock env + 3600000)] else []).
  { rewrite Hf. unfold with_users. cbn [users].
    rewrite filter_app. cbn [filter].
    rewrite (filter_nothing _ _ pre) by (intros; apply Hout; left; assumption).
    rewrite (filter_nothing _ _ post) by (intros; apply Hout; right; assumption).
    unfold reset_matches at 1, holding_token at 1 2.
    cbn [user_resetToken user_resetTokenExpiry].
    rewrite String.eqb_refl. cbn [andb app].
    destruct (clock env' - 3600000 <=? clock env + 3600000); reflexivity. }
  split; intro Hclock.
  - destruct (issued_token_accepted_run F mk SECRET env env' s email ctx ctx' u
                password Hu Hnobody Hclock)
      as [pre' [post' [_ [Hpre' [_ Hrun]]]]].
    unfold out, issued. rewrite Hrun. cbn [result final trace].
    split; [reflexivity |]. split; [reflexivity |].
    unfold find_user, with_users. cbn [users].
    rewrite (find_skip _ _ pre' _ Hpre').
    cbn [find user_matches]. unfold renewed, with_password at 1.
    cbn [user_email]. rewrite He, String.eqb_refl. reflexivity.
  - assert (Hb : (clock env' - 3600000 <=? clock env + 3600000) = false)
      by (apply Z.leb_gt; lia).
    unfold out, resetPassword.
    cbn [ra_password ra_confirmPassword ra_resetToken].
    rewrite String.eqb_refl. cbn [negb].
    rewrite run_await. cbn [handle].
    rewrite run_await. cbn [handle]. rewrite Hfilter, Hb.
    rewrite run_throw. split; reflexivity.
Qed.

Lemma issued_token_resets_password_for_two_hours_witness :
  let issued :=
    final (run (Sample.world 1000 Sample.captures)
               (requestReset "https://shop.io" (fun text => text)
                             "carol@shop.io" Sample.anonymous) Sample.shop) in
  result (run (Sample.world 7201000 Sample.captures)
              (resetPassword "secret" (mkResetArgs "5f2c9a" "pw2" "pw2")
                             Sample.anonymous) issued)
  = inr (with_password Sample.carol "$2a$pw2")
  /\ result (run (Sample.world 7201001 Sample.captures)
                 (resetPassword "secret" (mkResetArgs "5f2c9a" "pw2" "pw2")
                                Sample.anonymous) issued)
     = inl (Error "This token is either invalid or expired!").
Proof.
  intro issued.
  assert (Hnobody : nobody_holds "5f2c9a" Sample.shop).
  { intros v Hv. simpl in Hv.
    destruct Hv as [<- | [<- | [<- | []]]]; discriminate. }
  split.
  - apply (issued_token_resets_password_for_two_hours
             "https://shop.io" (fun text => text) "secret"
             (Sample.world 1000 Sample.captures)
             (Sample.world 7201000 Sample.captures)
             Sample.shop "carol@shop.io" Sample.anonymous Sample.anonymous
             Sample.carol "pw2" eq_refl Hnobody).
    cbn. lia.
  - apply (issued_token_resets_password_for_two_hours
             "https://shop.io" (fun text => text) "secret"
             (Sample.world 1000 Sample.captures)
             (Sample.world 7201001 Sample.captures)
             Sample.shop "carol@shop.io" Sample.anonymous Sample.anonymous
             Sample.carol "pw2" eq_refl Hnobody).
    cbn. lia.
Defined.

(** X7: a reset token works once.  After [resetPassword] has taken a token
    issued by [requestReset] (one that nobody held before), a second
    [resetPassword] with the same token, at any time and with any
    password, throws "This token is either invalid or expired!" and leaves
    the store, and so the password of the first reset, as it is. *)
Theorem reset_token_works_once :
  forall FRONTEND_URL makeANiceEmail APP_SECRET env env' env'' s email
         ctx ctx' ctx'' u password password',
    find_user (where_email email) s = Some u ->
    nobody_holds (random_hex env 20) s ->
    clock env' <= clock env + 7200000 ->
    let issued :=
      final (run env (requestReset FRONTEND_URL makeANiceEmail email ctx) s) in
    let used :=
      final (run env' (resetPassword APP_SECRET
                         (mkResetArgs (random_hex env 20) password password) ctx')
                 issued) in
    let again :=
      run env'' (resetPassword APP_SECRET
                   (mkResetArgs (random_hex env 20) password' password') ctx'')
          used in
    result again = inl (Error "This token is either invalid or expired!")
    /\ final again = used
    /\ find_user (where_email email) used
       = Some (with_password u (hash_outcome env' password 10)).
Proof.
  intros F mk SECRET env env' env'' s email ctx ctx' ctx'' u password password'
         Hu Hnobody Hclock issued used again.
  destruct (issued_token_accepted_run F mk SECRET env env' s email ctx ctx' u
              password Hu Hnobody Hclock)
    as [pre [post [Hl [Hpre [He Hrun]]]]].
  assert (Hused : used = with_users s
            (pre ++ with_password u (hash_outcome env' password 10) :: post)).
  { unfold used, issued. rewrite Hrun. reflexivity. }
  assert (Hnow : nobody_holds (random_hex env 20) used).
  { rewrite Hused. intros v Hv. unfold with_users in Hv. cbn [users] in Hv.
    apply in_app_or in Hv. destruct Hv as [Hv | [<- | Hv]].
    - apply Hnobody. rewrite Hl. apply in_or_app. left. exact Hv.
    - cbn. discriminate.
    - apply Hnobody. rewrite Hl. apply in_or_app. right. right. exact Hv. }
  unfold again.
  rewrite (resetPassword_no_match_run SECRET env'' used _ password' ctx'').
  2:{ intros v Hv. apply reset_matches_other_token. apply Hnow. exact Hv. }
  split; [reflexivity |]. split; [reflexivity |].
  rewrite Hused. unfold find_user, with_users. cbn [users].
  rewrite (find_skip _ _ pre _ Hpre).
  cbn [find user_matches]. unfold with_password at 1.
  cbn [user_email]. rewrite He, String.eqb_refl. reflexivity.
Qed.

Lemma reset_token_works_once_witness :
  let W := Sample.world 0 Sample.captures in
  let issued :=
    final (run W (requestReset "https://shop.io" (fun text => text)
                               "carol@shop.io" Sample.anonymous) Sample.shop) in
  let used :=
    final (run W (resetPassword "secret" (mkResetArgs "5f2c9a" "pw2" "pw2")
                                Sample.anonymous) issued) in
  result (run W (resetPassword "secret" (mkResetArgs "5f2c9a" "pw3" "pw3")
                               Sample.anonymous) used)
  = inl (Error "This token is either invalid or expired!").
Proof.
  intros W issued used.
  refine (proj1 (reset_token_works_once
                   "https://shop.io" (fun text => text) "secret" W W W
                   Sample.shop "carol@shop.io" Sample.anonymous Sample.anonymous
                   Sample.anonymous Sample.carol "pw2" "pw3" eq_refl _ _)).
  - intros v Hv. simpl in Hv.
    destruct Hv as [<- | [<- | [<- | []]]]; discriminate.
  - cbn. lia.
Defined.

(** ** Items: create, update, delete *)

Lemma truthy_id_some : forall u uid, truthy_id u = Some uid -> u = Some uid.
Proof.
  intros [[| c r] |] uid H; simpl in H; try discriminate.
  injection H as <-. reflexivity.
Qed.

Lemma with_items_same : forall s, with_items (with_items s (items s)) (items s) = s.
Proof. intros []. reflexivity. Qed.

Lemma fresh_not_matching :
  forall (A : Type) (key : A -> ID) (l : list A) (n : ID),
    ~ In n (map key l) ->
    forall x, In x l -> String.eqb (key x) n = false.
Proof.
  intros A key l n Hfresh x Hx. apply String.eqb_neq. intro E.
  apply Hfresh. rewrite <- E. apply in_map. exact Hx.
Qed.

(** X8: an item made by [createItem] belongs to the user of the session,
    and that user may delete it whatever the permissions the request
    carries: [deleteItem] on the new id returns the item and the store is
    again the one before [createItem] (the store naming the new item with
    an unused id). *)
Theorem createItem_then_deleteItem_restores_store :
  forall env env' s args ctx uid owner actor,
    truthy_id (userId ctx) = Some uid ->
    find_user (where_id uid) s = Some owner ->
    user ctx = Some actor ->
    unique_new_item_id env s ->
    let created := run env (createItem args ctx) s in
    let it := mkItem (new_id env s) (arg_title args) (arg_description args)
                     (arg_image args) (arg_largeImage args) (arg_price args) uid in
    result created = inr it
    /\ final created = with_items s (items s ++ [it])
    /\ run env' (deleteItem (item_id it) ctx) (final created)
       = mkOutcome (inr it) s
                   [event (db_query_item (item_id it));
                    event (db_mutation_deleteItem (item_id it))].
Proof.
  intros env env' s args ctx uid owner actor Hauth Howner Hactor Hfresh created it.
  assert (Hcreated : created = mkOutcome (inr it) (with_items s (items s ++ [it]))
                                         [event (db_mutation_createItem uid args)]).
  { unfold created, createItem. rewrite Hauth.
    rewrite run_await. cbn [handle]. rewrite Howner. reflexivity. }
  rewrite Hcreated. cbn [result final].
  split; [reflexivity |]. split; [reflexivity |].
  pose proof (fresh_not_matching _ item_id (items s) (new_id env s) Hfresh) as Hno.
  unfold deleteItem. rewrite run_await. cbn [handle].
  unfold find_item, with_items at 1. cbn [items item_id].
  rewrite (find_skip _ _ (items s) _ Hno).
  cbn [find item_id it]. rewrite String.eqb_refl.
  rewrite Hactor. cbn [item_user].
  rewrite (truthy_id_some _ _ Hauth). cbn [strict_eq].
  rewrite String.eqb_refl. cbn [negb andb].
  rewrite run_await. cbn [handle].
  unfold with_items at 1. cbn [items].
  rewrite (remove_first_at _ _ (items s) it [] Hno)
    by (cbn [item_id it]; apply String.eqb_refl).
  rewrite run_ret. rewrite app_nil_r.
  unfold after. cbn [result final trace].
  f_equal. destruct s; reflexivity.
Qed.

Lemma createItem_then_deleteItem_restores_store_witness :
  let W := Sample.world 0 Sample.captures in
  let ctx := Sample.session Sample.carol in
  let created :=
    run W (createItem (mkItemArgs "Hat" "Felt hat" 900 "h.jpg" "H.jpg") ctx)
        Sample.shop in
  final (run W (deleteItem "nu1u2u3i1i2i3c1c2c3" ctx) (final created)) = Sample.shop.
Proof.
  intros W ctx created.
  destruct (createItem_then_deleteItem_restores_store
              W W Sample.shop (mkItemArgs "Hat" "Felt hat" 900 "h.jpg" "H.jpg")
              ctx "u3" Sample.carol Sample.carol eq_refl eq_refl eq_refl)
    as [_ [_ Hdel]].
  - unfold unique_new_item_id. simpl. intros [H | [H | [H | []]]]; discriminate H.
  - fold created in Hdel. cbn [item_id] in Hdel.
    change (new_id W Sample.shop) with "nu1u2u3i1i2i3c1c2c3" in Hdel.
    rewrite Hdel. reflexivity.
Defined.

(** X9: [updateItem] looks at neither session nor owner: for any request,
    also one without a session, an existing item comes back with the
    title, description and price given and everything else as it was, and
    is stored so; no item is added or removed, no id, owner or image
    changes, and the other tables stay.  An id that names no item is
    rejected by the store, which stays as it is. *)
Theorem updateItem_edits_any_item_for_anyone :
  forall env s id updates ctx,
    let out := run env (updateItem id updates ctx) s in
    (forall it, find_item id s = Some it ->
       result out = inr (apply_item_updates updates it)
       /\ find_item id (final out) = Some (apply_item_updates updates it))
    /\ (find_item id s = None -> result out = inl StoreError /\ final out = s)
    /\ map item_id (items (final out)) = map item_id (items s)
    /\ map item_user (items (final out)) = map item_user (items s)
    /\ map item_image (items (final out)) = map item_image (items s)
    /\ users (final out) = users s
    /\ cartItems (final out) = cartItems s
    /\ orders (final out) = orders s.
Proof.
  intros env s id updates ctx out. unfold out, updateItem.
  rewrite run_await. cbn [handle].
  destruct (find_item id s) as [it |] eqn:Hit.
  - unfold find_item in Hit.
    destruct (find_split _ _ _ _ Hit) as [pre [post [Hl [Hpre Hm]]]].
    rewrite Hl. rewrite (update_first_at _ _ _ pre it post Hpre Hm).
    rewrite run_ret. cbn [after result final]. unfold with_items.
    cbn [users items cartItems orders].
    split.
    + intros it' [= <-]. split; [reflexivity |].
      unfold find_item. cbn [items]. rewrite (find_skip _ _ pre _ Hpre).
      cbn [find apply_item_updates item_id]. cbn [item_id] in Hm.
      rewrite Hm. reflexivity.
    + split; [discriminate |].
      rewrite !map_app. cbn [map apply_item_updates item_id item_user item_image].
      repeat split; reflexivity.
  - unfold find_item in Hit. rewrite (update_first_missing _ _ _ _ Hit).
    cbn [after result final].
    split; [discriminate |]. repeat split; reflexivity.
Qed.

Lemma updateItem_edits_any_item_for_anyone_witness :
  let out := run (Sample.world 0 Sample.captures)
                 (updateItem "i2" (mkItemUpdates None None (Some 1))
                             Sample.anonymous) Sample.shop in
  result out = inr (mkItem "i2" "Socks" "Wool socks" "k.jpg" "K.jpg" 1 "u2")
  /\ find_item "i2" (final out)
     = Some (mkItem "i2" "Socks" "Wool socks" "k.jpg" "K.jpg" 1 "u2").
Proof.
  intro out.
  exact (proj1 (updateItem_edits_any_item_for_anyone
                  (Sample.world 0 Sample.captures) Sample.shop "i2"
                  (mkItemUpdates None None (Some 1)) Sample.anonymous)
               Sample.socks eq_refl).
Defined.

(** X10: [deleteItem] reads [item.user] and [ctx.request.user.permissions]
    without a check: for an id that names no item, and for a request that
    carries no user, it throws a [TypeError] after the one query, and
    deletes nothing.  Whatever it answers, it leaves users, cart rows and
    orders alone and removes at most one item. *)
Theorem deleteItem_missing_item_or_user_is_TypeError :
  forall env s id ctx,
    let out := run env (deleteItem id ctx) s in
    let gave_up := mkOutcome (inl TypeError) s [event (db_query_item id)] in
    (find_item id s = None -> out = gave_up)
    /\ (user ctx = None -> out = gave_up)
    /\ users (final out) = users s
    /\ cartItems (final out) = cartItems s
    /\ orders (final out) = orders s
    /\ (List.length (items s) <= S (List.length (items (final out))))%nat.
Proof.
  intros env s id ctx out gave_up. unfold out, gave_up, deleteItem.
  rewrite run_await. cbn [handle].
  destruct (find_item id s) as [it |] eqn:Hit.
  - destruct (user ctx) as [actor |].
    + destruct (negb (strict_eq (item_user it) (userId ctx)) && _)%bool.
      * rewrite run_throw. cbn [after result final].
        split; [discriminate |]. split; [discriminate |].
        repeat split; try reflexivity. lia.
      * rewrite run_await. cbn [handle].
        unfold find_item in Hit.
        destruct (find_split _ _ _ _ Hit) as [pre [post [Hl [Hpre Hm]]]].
        rewrite Hl. rewrite (remove_first_at _ _ pre it post Hpre Hm).
        rewrite run_ret. cbn [after result final]. unfold with_items.
        cbn [users items cartItems orders].
        split; [discriminate |]. split; [discriminate |].
        repeat split; try reflexivity.
        rewrite !length_app. cbn [List.length]. lia.
    + rewrite run_throw. cbn [after result final].
      split; [discriminate |]. split; [reflexivity |].
      repeat split; try reflexivity. lia.
  - rewrite run_throw. cbn [after result final].
    split; [reflexivity |]. split; [reflexivity |].
    repeat split; try reflexivity. lia.
Qed.

Lemma deleteItem_missing_item_or_user_is_TypeError_witness :
  run (Sample.world 0 Sample.captures)
      (deleteItem "i9" (Sample.session Sample.bob)) Sample.shop
  = mkOutcome (inl TypeError) Sample.shop [event (db_query_item "i9")].
Proof.
  exact (proj1 (deleteItem_missing_item_or_user_is_TypeError
                  (Sample.world 0 Sample.captures) Sample.shop "i9"
                  (Sample.session Sample.bob)) eq_refl).
Defined.

(** ** The cart: remove, add and remove, add again and again *)

Lemma remove_first_cart_gone :
  forall id l x rest,
    NoDup (map cart_id l) ->
    remove_first (fun ci => String.eqb (cart_id ci) id) l = Some (x, rest) ->
    find (fun ci => String.eqb (cart_id ci) id) rest = None.
Proof.
  induction l as [| y l IH]; intros x rest Hnd H; simpl in *.
  - discriminate.
  - inversion Hnd as [| ? ? Hy Hl]; subst.
    destruct (String.eqb (cart_id y) id) eqn:E.
    + injection H as _ <-. apply String.eqb_eq in E. subst id.
      destruct (find _ l) as [z |] eqn:F; [| reflexivity].
      apply find_some in F. destruct F as [Hz Ez].
      apply String.eqb_eq in Ez. exfalso. apply Hy. rewrite <- Ez.
      apply in_map. exact Hz.
    + destruct (remove_first _ l) as [[z l'] |] eqn:R; [| discriminate].
      injection H as _ <-. simpl. rewrite E. apply (IH z l' Hl eq_refl).
Qed.

(** X11: [removeFromCart] deletes a cart row for its owner only.  For a
    row that exists, the row is deleted and returned exactly when the
    request's [userId] is the row's user; then one row less is stored and,
    ids being unique, the id names no row any more.  For any other
    request, one without session included, the call throws "Operation
    unallowed"; for an id that names no row it throws "No CartItem
    Found!"; in both cases the store stays as it is. *)
Theorem removeFromCart_only_by_owner :
  forall env s id ctx,
    let out := run env (removeFromCart id ctx) s in
    (find_cartItem id s = None ->
     result out = inl (Error "No CartItem Found!") /\ final out = s)
    /\ (forall row, find_cartItem id s = Some row ->
        userId ctx <> Some (cart_user row) ->
        result out = inl (Error "Operation unallowed") /\ final out = s)
    /\ (forall row, find_cartItem id s = Some row ->
        userId ctx = Some (cart_user row) ->
        result out = inr row
        /\ S (List.length (cartItems (final out))) = List.length (cartItems s)
        /\ (unique_cart_ids s -> find_cartItem id (final out) = None)
        /\ users (final out) = users s
        /\ items (final out) = items s
        /\ orders (final out) = orders s).
Proof.
  intros env s id ctx out. unfold out, removeFromCart, find_cartItem.
  rewrite run_await. cbn [handle].
  destruct (find _ (cartItems s)) as [row |] eqn:Hrow.
  - split; [discriminate |].
    destruct (strict_eq (cart_user row) (userId ctx)) eqn:Eo; cbn [negb].
    + apply strict_eq_true in Eo.
      split; [intros r [= <-] Hne; contradiction |].
      intros r [= <-] _.
      rewrite run_await. cbn [handle].
      destruct (find_split _ _ _ _ Hrow) as [pre [post [Hl [Hpre Hm]]]].
      pose proof (remove_first_at _ _ pre row post Hpre Hm) as Hrem.
      rewrite <- Hl in Hrem. rewrite Hrem.
      rewrite run_ret. cbn [after result final]. unfold with_cartItems.
      cbn [users items cartItems orders].
      split; [reflexivity |]. split.
      * rewrite Hl, !length_app. cbn [List.length]. lia.
      * split; [| repeat split; reflexivity].
        intro Hnd. apply (remove_first_cart_gone id (cartItems s) row _ Hnd Hrem).
    + split.
      * intros r [= <-] _. rewrite run_throw. split; reflexivity.
      * intros r [= <-] He. apply strict_eq_true in He.
        rewrite He in Eo. discriminate Eo.
  - split.
    + intros _. rewrite run_throw. split; reflexivity.
    + split; discriminate.
Qed.

Lemma removeFromCart_only_by_owner_witness :
  let W := Sample.world 0 Sample.captures in
  result (run W (removeFromCart "c1" (Sample.session Sample.bob)) Sample.shop)
  = inl (Error "Operation unallowed")
  /\ result (run W (removeFromCart "c1" (Sample.session Sample.alice)) Sample.shop)
     = inr (mkCartItem "c1" 2 "i1" "u1")
  /\ find_cartItem "c1"
       (final (run W (removeFromCart "c1" (Sample.session Sample.alice)) Sample.shop))
     = None.
Proof.
  intro W.
  destruct (removeFromCart_only_by_owner W Sample.shop "c1" (Sample.session Sample.bob))
    as [_ [Hother _]].
  destruct (removeFromCart_only_by_owner W Sample.shop "c1" (Sample.session Sample.alice))
    as [_ [_ Howner]].
  split.
  - apply (Hother (mkCartItem "c1" 2 "i1" "u1") eq_refl). cbn. discriminate.
  - destruct (Howner (mkCartItem "c1" 2 "i1" "u1") eq_refl eq_refl)
      as [Hr [_ [Hgone _]]].
    split; [exact Hr |]. apply Hgone.
    unfold unique_cart_ids. simpl.
    repeat constructor; simpl; intuition discriminate.
Defined.

Lemma addToCart_creates :
  forall env s id ctx uid,
    truthy_id (userId ctx) = Some uid ->
    rows_for uid id s = [] ->
    is_some (find_user (where_id uid) s) = true ->
    is_some (find_item id s) = true ->
    run env (addToCart id ctx) s
    = mkOutcome (inr (mkCartItem (new_id env s) 1 id uid))
                (with_cartItems s (cartItems s ++ [mkCartItem (new_id env s) 1 id uid]))
                [event (db_query_cartItems uid id);
                 event (db_mutation_createCartItem uid id)].
Proof.
  intros env s id ctx uid Hauth Hnone Hu Hi. unfold addToCart. rewrite Hauth.
  rewrite run_await. cbn [handle]. unfold rows_for in Hnone. rewrite Hnone.
  rewrite run_await. cbn [handle]. rewrite Hu, Hi. reflexivity.
Qed.

Lemma addToCart_increments_last :
  forall env s id ctx uid n q,
    truthy_id (userId ctx) = Some uid ->
    rows_for uid id s = [] ->
    ~ In n (map cart_id (cartItems s)) ->
    final (run env (addToCart id ctx)
               (with_cartItems s (cartItems s ++ [mkCartItem n q id uid])))
    = with_cartItems s (cartItems s ++ [mkCartItem n (q + 1) id uid]).
Proof.
  intros env s id ctx uid n q Hauth Hnone Hfresh. unfold addToCart. rewrite Hauth.
  rewrite run_await. cbn [handle].
  pose proof (rows_for_created s uid id n q) as Hrows.
  unfold rows_for in Hrows, Hnone. rewrite Hrows, Hnone. cbn [app].
  rewrite run_await. cbn [handle cart_id cart_quantity].
  unfold with_cartItems at 1. cbn [cartItems].
  rewrite update_first_last.
  - reflexivity.
  - apply (fresh_not_matching _ cart_id (cartItems s) n Hfresh).
  - apply String.eqb_refl.
Qed.

(** X12: a row made by [addToCart] is removed by [removeFromCart] on its
    id for the same session, and the store is again the one before the
    [addToCart]. *)
Theorem addToCart_then_removeFromCart_restores_store :
  forall env env' s id ctx uid,
    truthy_id (userId ctx) = Some uid ->
    rows_for uid id s = [] ->
    is_some (find_user (where_id uid) s) = true ->
    is_some (find_item id s) = true ->
    unique_new_cart_id env s ->
    let added := run env (addToCart id ctx) s in
    let row := mkCartItem (new_id env s) 1 id uid in
    result added = inr row
    /\ run env' (removeFromCart (cart_id row) ctx) (final added)
       = mkOutcome (inr row) s
                   [event (db_query_cartItem (cart_id row));
                    event (db_mutation_deleteCartItem (cart_id row))].
Proof.
  intros env env' s id ctx uid Hauth Hnone Hu Hi Hfresh added row.
  unfold added. rewrite (addToCart_creates env s id ctx uid Hauth Hnone Hu Hi).
  cbn [result final]. split; [reflexivity |].
  pose proof (fresh_not_matching _ cart_id (cartItems s) (new_id env s) Hfresh) as Hno.
  unfold removeFromCart. rewrite run_await. cbn [handle].
  unfold with_cartItems at 1. cbn [cartItems cart_id row].
  rewrite (find_skip _ _ (cartItems s) _ Hno).
  cbn [find cart_id]. rewrite String.eqb_refl. cbn [cart_user].
  rewrite (truthy_id_some _ _ Hauth). cbn [strict_eq].
  rewrite String.eqb_refl. cbn [negb].
  rewrite run_await. cbn [handle].
  unfold with_cartItems at 1. cbn [cartItems].
  rewrite (remove_first_at _ _ (cartItems s) _ [] Hno)
    by (cbn [cart_id]; apply String.eqb_refl).
  rewrite run_ret, app_nil_r. unfold after. cbn [result final trace].
  f_equal. destruct s; reflexivity.
Qed.

Lemma addToCart_then_removeFromCart_restores_store_witness :
  let W := Sample.world 0 Sample.captures in
  let ctx := Sample.session Sample.alice in
  final (run W (removeFromCart "nu1u2u3i1i2i3c1c2c3" ctx)
             (final (run W (addToCart "i3" ctx) Sample.shop)))
  = Sample.shop.
Proof.
  intros W ctx.
  destruct (addToCart_then_removeFromCart_restores_store
              W W Sample.shop "i3" ctx "u1" eq_refl eq_refl eq_refl eq_refl)
    as [_ Hback].
  - unfold unique_new_cart_id. simpl. intros [H | [H | [H | []]]]; discriminate H.
  - cbn [cart_id] in Hback.
    change (new_id W Sample.shop) with "nu1u2u3i1i2i3c1c2c3" in Hback.
    rewrite Hback. reflexivity.
Defined.

(** X13: [n + 1] calls of [addToCart] in a row for a pair that had no row
    leave one row for the pair, with quantity [n + 1], and one row more in
    the table than before, whatever [n]. *)
Theorem addToCart_counts_the_calls :
  forall n env s id ctx uid,
    truthy_id (userId ctx) = Some uid ->
    rows_for uid id s = [] ->
    is_some (find_user (where_id uid) s) = true ->
    is_some (find_item id s) = true ->
    unique_new_cart_id env s ->
    let after_calls := repeatedly env (addToCart id ctx) (S n) s in
    rows_for uid id after_calls
    = [mkCartItem (new_id env s) (Z.of_nat (S n)) id uid]
    /\ List.length (cartItems after_calls) = S (List.length (cartItems s)).
Proof.
  intros n env s id ctx uid Hauth Hnone Hu Hi Hfresh after_calls.
  assert (Hshape : after_calls
                   = with_cartItems s
                       (cartItems s
                        ++ [mkCartItem (new_id env s) (Z.of_nat (S n)) id uid])).
  { unfold after_calls. clear after_calls. induction n as [| n IH].
    - cbn [repeatedly].
      rewrite (addToCart_creates env s id ctx uid Hauth Hnone Hu Hi). reflexivity.
    - change (repeatedly env (addToCart id ctx) (S (S n)) s)
        with (final (run env (addToCart id ctx)
                         (repeatedly env (addToCart id ctx) (S n) s))).
      rewrite IH.
      rewrite (addToCart_increments_last env s id ctx uid _ _ Hauth Hnone Hfresh).
      replace (Z.of_nat (S n) + 1) with (Z.of_nat (S (S n))) by lia.
      reflexivity. }
  rewrite Hshape. split.
  - rewrite rows_for_created, Hnone. reflexivity.
  - unfold with_cartItems. cbn [cartItems]. rewrite length_app. cbn. lia.
Qed.

Lemma addToCart_counts_the_calls_witness :
  let W := Sample.world 0 Sample.captures in
  rows_for "u1" "i3"
    (repeatedly W (addToCart "i3" (Sample.session Sample.alice)) 5 Sample.shop)
  = [mkCartItem "nu1u2u3i1i2i3c1c2c3" 5 "i3" "u1"].
Proof.
  intro W.
  refine (proj1 (addToCart_counts_the_calls
                   4 W Sample.shop "i3" (Sample.session Sample.alice) "u1"
                   eq_refl eq_refl eq_refl eq_refl _)).
  unfold unique_new_cart_id. simpl. intros [H | [H | [H | []]]]; discriminate H.
Defined.

(** ** Checkout: the edges *)

Lemma cart_amount_missing_item :
  forall cart l, In l cart -> line_item l = None -> cart_amount cart = None.
Proof.
  unfold cart_amount. intros cart l Hin Hnone. generalize (Some 0).
  induction cart as [| x cart IH]; intro acc; simpl.
  - destruct Hin.
  - destruct Hin as [-> | Hin].
    + unfold tally_step at 2. rewrite Hnone.
      destruct acc; apply fold_tally_none.
    + apply IH. exact Hin.
Qed.

Lemma snapshot_ids :
  forall s uid,
    map line_id (user_cart s uid)
    = map cart_id (filter (owned_by uid) (cartItems s)).
Proof.
  intros s uid. unfold user_cart. rewrite map_map. reflexivity.
Qed.

Lemma NoDup_map_same :
  forall (A B : Type) (f : A -> B) l a b,
    NoDup (map f l) -> In a l -> In b l -> f a = f b -> a = b.
Proof.
  induction l as [| x l IH]; intros a b Hnd Ha Hb E; simpl in *.
  - destruct Ha.
  - inversion Hnd as [| ? ? Hx Hl]; subst.
    destruct Ha as [-> | Ha]; destruct Hb as [-> | Hb].
    + reflexivity.
    + exfalso. apply Hx. rewrite E. apply in_map. exact Hb.
    + exfalso. apply Hx. rewrite <- E. apply in_map. exact Ha.
    + apply IH; assumption.
Qed.

Lemma createOrder_success_run :
  forall env s token ctx uid u snapshot charge,
    truthy_id (userId ctx) = Some uid ->
    find_user (where_id uid) s = Some u ->
    snapshot_of (user_cart s uid) snapshot ->
    charge_outcome env (snapshot_total snapshot) "USD" token = inr charge ->
    let ids := map line_id (user_cart s uid) in
    let order := order_for env s uid snapshot charge in
    run env (createOrder token ctx) s
    = mkOutcome (inr order)
        (with_cartItems (with_orders s (orders s ++ [order]))
           (filter (fun ci => negb (includes ids (cart_id ci))) (cartItems s)))
        [event (db_query_user_cart uid);
         event (stripe_charges_create (snapshot_total snapshot) "USD" token);
         event (db_mutation_createOrder (charge_amount charge) (charge_id charge)
                  (order_items order) uid);
         event (db_mutation_deleteManyCartItems ids)].
Proof.
  intros env s token ctx uid u snapshot charge Hauth Hu Hsnap Hc ids order.
  unfold createOrder. rewrite Hauth.
  rewrite run_await. cbn [handle]. rewrite Hu.
  rewrite (cart_amount_snapshot _ _ Hsnap).
  rewrite (orderItems_of_snapshot uid _ _ Hsnap).
  rewrite run_await. cbn [handle]. rewrite Hc.
  rewrite run_await. cbn [handle]. rewrite Hu. cbn [is_some].
  rewrite run_await. cbn [handle]. rewrite run_ret.
  reflexivity.
Qed.

Lemma createOrder_charge_event :
  forall env s token ctx uid u snapshot,
    truthy_id (userId ctx) = Some uid ->
    find_user (where_id uid) s = Some u ->
    snapshot_of (user_cart s uid) snapshot ->
    nth_error (trace (run env (createOrder token ctx) s)) 1
    = Some (event (stripe_charges_create (snapshot_total snapshot) "USD" token)).
Proof.
  intros env s token ctx uid u snapshot Hauth Hu Hsnap.
  unfold createOrder. rewrite Hauth.
  rewrite run_await. cbn [handle]. rewrite Hu.
  rewrite (cart_amount_snapshot _ _ Hsnap).
  rewrite run_await. cbn [handle].
  destruct (charge_outcome env (snapshot_total snapshot) "USD" token);
    reflexivity.
Qed.

(** X14: a checkout that succeeds empties the cart of the caller and adds
    one order, last in the table, owned by the caller, with one order item
    per cart line that copies title, description, images and price of the
    item and the quantity of the line; users and items stay; and, cart ids
    being unique, the rows left are exactly the rows of the other users. *)
Theorem createOrder_empties_the_callers_cart :
  forall env s token ctx uid u snapshot charge,
    truthy_id (userId ctx) = Some uid ->
    find_user (where_id uid) s = Some u ->
    snapshot_of (user_cart s uid) snapshot ->
    charge_outcome env (snapshot_total snapshot) "USD" token = inr charge ->
    let out := run env (createOrder token ctx) s in
    let order := order_for env s uid snapshot charge in
    result out = inr order
    /\ orders (final out) = (orders s ++ [order])%list
    /\ users (final out) = users s
    /\ items (final out) = items s
    /\ user_cart (final out) uid = []
    /\ List.length (order_items order) = List.length (user_cart s uid)
    /\ (unique_cart_ids s ->
        cartItems (final out)
        = filter (fun ci => negb (owned_by uid ci)) (cartItems s)).
Proof.
  intros env s token ctx uid u snapshot charge Hauth Hu Hsnap Hc out order.
  unfold out.
  rewrite (createOrder_success_run env s token ctx uid u snapshot charge
             Hauth Hu Hsnap Hc).
  cbn [result final]. unfold with_cartItems, with_orders.
  cbn [users items cartItems orders].
  split; [reflexivity |]. split; [reflexivity |].
  split; [reflexivity |]. split; [reflexivity |].
  rewrite snapshot_ids.
  split; [| split].
  - unfold user_cart. cbn [cartItems].
    rewrite (filter_nothing _ (fun ci => String.eqb (cart_user ci) uid)
                            (filter _ (cartItems s))); [reflexivity |].
    intros x Hx. apply filter_In in Hx. destruct Hx as [Hx Hkept].
    apply includes_not_In in Hkept.
    destruct (String.eqb (cart_user x) uid) eqn:E; [| reflexivity].
    exfalso. apply Hkept. apply in_map. apply filter_In. split; assumption.
  - unfold order, order_for. cbn [order_items]. rewrite length_map.
    symmetry. apply (Forall2_length Hsnap).
  - intro Hnd. apply filter_ext_in. intros x Hx. f_equal.
    destruct (owned_by uid x) eqn:E.
    + apply includes_In. apply in_map. apply filter_In. split; assumption.
    + destruct (includes _ (cart_id x)) eqn:Ei; [| reflexivity].
      apply includes_In in Ei. apply in_map_iff in Ei.
      destruct Ei as [y [Eid Hy]]. apply filter_In in Hy. destruct Hy as [Hy Ey].
      assert (y = x) by (apply (NoDup_map_same _ _ cart_id (cartItems s)); assumption).
      subst y. rewrite Ey in E. discriminate E.
Qed.

Lemma createOrder_empties_the_callers_cart_witness :
  let out := run (Sample.world 0 Sample.captures)
                 (createOrder "tok_visa" (Sample.session Sample.alice))
                 Sample.shop in
  user_cart (final out) "u1" = []
  /\ cartItems (final out) = [mkCartItem "c3" 1 "i1" "u2"].
Proof.
  intro out.
  destruct (createOrder_empties_the_callers_cart
              (Sample.world 0 Sample.captures) Sample.shop "tok_visa"
              (Sample.session Sample.alice) "u1" Sample.alice
              [(Sample.shoes, 2); (Sample.socks, 1)]
              (mkCharge "ch_tok_visa" 2500) eq_refl eq_refl)
    as [_ [_ [_ [_ [Hempty [_ Hothers]]]]]].
  - repeat constructor.
  - reflexivity.
  - split; [exact Hempty |].
    fold out in Hothers. rewrite Hothers; [reflexivity |].
    unfold unique_cart_ids. simpl.
    repeat constructor; simpl; intuition discriminate.
Defined.

(** X15: [createOrder] has no guard on an empty cart: for a user with no
    cart row it charges 0 USD, and when the gateway answers with a charge
    it persists an order with no item and the captured amount as total;
    no cart row is touched. *)
Theorem createOrder_on_empty_cart_charges_zero :
  forall env s token ctx uid u,
    truthy_id (userId ctx) = Some uid ->
    find_user (where_id uid) s = Some u ->
    user_cart s uid = [] ->
    let out := run env (createOrder token ctx) s in
    nth_error (trace out) 1 = Some (event (stripe_charges_create 0 "USD" token))
    /\ forall charge,
         charge_outcome env 0 "USD" token = inr charge ->
         result out
         = inr (mkOrder (new_id env s) [] (charge_amount charge) uid (charge_id charge))
         /\ cartItems (final out) = cartItems s
         /\ List.length (orders (final out)) = S (List.length (orders s)).
Proof.
  intros env s token ctx uid u Hauth Hu Hempty out.
  assert (Hsnap : snapshot_of (user_cart s uid) []).
  { rewrite Hempty. constructor. }
  split.
  - apply (createOrder_charge_event env s token ctx uid u [] Hauth Hu Hsnap).
  - intros charge Hc. unfold out.
    rewrite (createOrder_success_run env s token ctx uid u [] charge
               Hauth Hu Hsnap Hc).
    cbn [result final]. rewrite Hempty. unfold with_cartItems, with_orders.
    cbn [users items cartItems orders map].
    split; [reflexivity |]. split.
    + apply forallb_filter_id. apply forallb_forall. intros x _. reflexivity.
    + rewrite length_app. cbn. lia.
Qed.

Lemma createOrder_on_empty_cart_charges_zero_witness :
  let out := run (Sample.world 0 Sample.captures)
                 (createOrder "tok_visa" (Sample.session Sample.carol))
                 Sample.shop in
  nth_error (trace out) 1 = Some (event (stripe_charges_create 0 "USD" "tok_visa"))
  /\ result out = inr (mkOrder "nu1u2u3i1i2i3c1c2c3" [] 0 "u3" "ch_tok_visa").
Proof.
  intro out.
  destruct (createOrder_on_empty_cart_charges_zero
              (Sample.world 0 Sample.captures) Sample.shop "tok_visa"
              (Sample.session Sample.carol) "u3" Sample.carol
              eq_refl eq_refl eq_refl) as [Hzero Horder].
  split; [exact Hzero |].
  exact (proj1 (Horder (mkCharge "ch_tok_visa" 0) eq_refl)).
Defined.

(** X16: a cart row of the caller whose item is no longer in the store
    stops the checkout before the gateway is called: [createOrder] throws
    a [TypeError] after the one query, nothing is charged and the store
    stays as it is. *)
Theorem createOrder_stops_on_a_row_without_item :
  forall env s token ctx uid row,
    truthy_id (userId ctx) = Some uid ->
    In row (cartItems s) ->
    cart_user row = uid ->
    find_item (cart_item row) s = None ->
    run env (createOrder token ctx) s
    = mkOutcome (inl TypeError) s [event (db_query_user_cart uid)].
Proof.
  intros env s token ctx uid row Hauth Hrow Hown Hgone.
  unfold createOrder. rewrite Hauth.
  rewrite run_await. cbn [handle].
  destruct (find_user (where_id uid) s) as [u |]; [| reflexivity].
  rewrite (cart_amount_missing_item (user_cart s uid) (cart_line s row)).
  - reflexivity.
  - unfold user_cart. apply in_map. apply filter_In. split; [exact Hrow |].
    rewrite Hown. apply String.eqb_refl.
  - unfold cart_line. cbn [line_item]. exact Hgone.
Qed.

(** X16 after Bob has deleted the shoes that are in Alice's cart. *)
Lemma createOrder_stops_on_a_row_without_item_witness :
  let W := Sample.world 0 Sample.captures in
  let without_shoes :=
    final (run W (deleteItem "i1" (Sample.session Sample.bob)) Sample.shop) in
  run W (createOrder "tok_visa" (Sample.session Sample.alice)) without_shoes
  = mkOutcome (inl TypeError) without_shoes [event (db_query_user_cart "u1")].
Proof.
  intros W without_shoes.
  apply (createOrder_stops_on_a_row_without_item
           W without_shoes "tok_visa" (Sample.session Sample.alice) "u1"
           (mkCartItem "c1" 2 "i1" "u1") eq_refl).
  - left. reflexivity.
  - reflexivity.
  - reflexivity.
Defined.

(** X17: nothing is undone after the charge.  When the gateway has
    charged and the store then rejects the order (here: the user was
    removed by another request in between), [createOrder] ends with the
    store's error; the charge was made, no order is stored, and the
    deletion of the cart rows is not issued. *)
Theorem createOrder_keeps_the_charge_when_the_order_fails :
  forall env f1 f2 f3 f4 s token ctx uid u amount charge,
    truthy_id (userId ctx) = Some uid ->
    find_user (where_id uid) (f1 s) = Some u ->
    cart_amount (user_cart (f1 s) uid) = Some amount ->
    charge_outcome env amount "USD" token = inr charge ->
    find_user (where_id uid) (f3 (f2 (f1 s))) = None ->
    let out := exec env [f1; f2; f3; f4] (createOrder token ctx) s in
    result out = inl StoreError
    /\ final out = f3 (f2 (f1 s))
    /\ nth_error (trace out) 1
       = Some (event (stripe_charges_create amount "USD" token))
    /\ List.length (trace out) = 3%nat.
Proof.
  intros env f1 f2 f3 f4 s token ctx uid u amount charge Hauth Hu Ham Hc Hgone.
  unfold createOrder. rewrite Hauth.
  rewrite exec_await. cbn [handle meanwhile tl]. rewrite Hu, Ham.
  rewrite exec_await. cbn [handle meanwhile tl]. rewrite Hc.
  destruct (cart_amount_orderItems uid (user_cart (f1 s) uid) 0 amount Ham)
    as [orderItems Hitems].
  rewrite Hitems.
  rewrite exec_await. cbn [handle meanwhile tl]. rewrite Hgone. cbn [is_some].
  repeat split.
Qed.

Lemma createOrder_keeps_the_charge_when_the_order_fails_witness :
  let without_alice := fun s : Store =>
    with_users s (filter (fun v => negb (String.eqb (user_id v) "u1")) (users s)) in
  let out := exec (Sample.world 0 Sample.captures)
                  [(fun s => s); (fun s => s); without_alice; (fun s => s)]
                  (createOrder "tok_visa" (Sample.session Sample.alice))
                  Sample.shop in
  result out = inl StoreError
  /\ orders (final out) = []
  /\ List.length (cartItems (final out)) = 3%nat
  /\ nth_error (trace out) 1
     = Some (event (stripe_charges_create 2500 "USD" "tok_visa")).
Proof.
  intros without_alice out.
  destruct (createOrder_keeps_the_charge_when_the_order_fails
              (Sample.world 0 Sample.captures)
              (fun s => s) (fun s => s) without_alice (fun s => s)
              Sample.shop "tok_visa" (Sample.session Sample.alice) "u1"
              Sample.alice 2500 (mkCharge "ch_tok_visa" 2500)
              eq_refl eq_refl eq_refl eq_refl eq_refl)
    as [Hr [Hf [Hcharge _]]].
  fold out in Hr, Hf, Hcharge.
  split; [exact Hr |]. rewrite Hf.
  split; [reflexivity |]. split; [reflexivity | exact Hcharge].
Defined.

(** ** Orders: who sees which *)

(** X18: [orders] gives a signed-in caller exactly the orders of the store
    whose user is the caller, in the order of the table, and changes
    nothing; right after a successful [createOrder] the list is the
    caller's earlier orders followed by the new one. *)
Theorem orders_query_lists_own_orders :
  forall env s ctx uid,
    truthy_id (userId ctx) = Some uid ->
    let mine := fun s' => filter (fun o => String.eqb (order_user o) uid) (orders s') in
    run env (orders_query ctx) s
    = mkOutcome (inr (mine s)) s [event (db_query_orders uid)]
    /\ (forall o, In o (mine s) <-> In o (orders s) /\ order_user o = uid)
    /\ (forall env' token u snapshot charge,
          find_user (where_id uid) s = Some u ->
          snapshot_of (user_cart s uid) snapshot ->
          charge_outcome env' (snapshot_total snapshot) "USD" token = inr charge ->
          result (run env (orders_query ctx)
                      (final (run env' (createOrder token ctx) s)))
          = inr (mine s ++ [order_for env' s uid snapshot charge])%list).
Proof.
  intros env s ctx uid Hauth mine.
  split; [| split].
  - unfold orders_query. rewrite Hauth. rewrite run_await. reflexivity.
  - intro o. unfold mine. rewrite filter_In, String.eqb_eq. reflexivity.
  - intros env' token u snapshot charge Hu Hsnap Hc.
    rewrite (createOrder_success_run env' s token ctx uid u snapshot charge
               Hauth Hu Hsnap Hc).
    cbn [final]. unfold orders_query. rewrite Hauth.
    rewrite run_await. cbn [handle]. rewrite run_ret. cbn [after result].
    unfold with_cartItems, with_orders. cbn [orders].
    rewrite filter_app. cbn [filter order_for order_user].
    rewrite String.eqb_refl. reflexivity.
Qed.

Lemma orders_query_lists_own_orders_witness :
  let W := Sample.world 0 Sample.captures in
  let ctx := Sample.session Sample.alice in
  result (run W (orders_query ctx) (final (run W (createOrder "tok_visa" ctx) Sample.shop)))
  = inr [order_for W Sample.shop "u1" [(Sample.shoes, 2); (Sample.socks, 1)]
                   (mkCharge "ch_tok_visa" 2500)].
Proof.
  intros W ctx.
  destruct (orders_query_lists_own_orders W Sample.shop ctx "u1" eq_refl)
    as [_ [_ Hafter]].
  apply (Hafter W "tok_visa" Sample.alice [(Sample.shoes, 2); (Sample.socks, 1)]
                (mkCharge "ch_tok_visa" 2500) eq_refl).
  - repeat constructor.
  - reflexivity.
Defined.

(** X19: [order] reads [order.user.id] from the node the store returns for
    the client's selection.  For a signed-in request with a user and an
    order that exists: when the selection has no [user], the call throws a
    [TypeError]; when it has, the order is returned exactly when the
    request's [userId] is the order's user and the selection has the [id]
    under [user], or the user's permissions include ADMIN, and otherwise
    the call throws "You don't have permission".  An id that names no
    order gives a [TypeError].  The store is never changed. *)
Theorem order_query_owner_or_admin :
  forall env s id ctx uid,
    truthy_id (userId ctx) = Some uid ->
    let out := run env (order_query id ctx) s in
    final out = s
    /\ (find_order id s = None -> result out = inl TypeError)
    /\ (forall o, find_order id s = Some o ->
          selects_user (info ctx) = false -> result out = inl TypeError)
    /\ (forall o actor,
          find_order id s = Some o -> selects_user (info ctx) = true ->
          user ctx = Some actor ->
          let shown :=
            (selects_user_id (info ctx) = true /\ order_user o = uid)
            \/ In "ADMIN" (user_permissions actor) in
          (shown -> result out = inr o)
          /\ (~ shown -> result out = inl (Error "You don't have permission"))).
Proof.
  intros env s id ctx uid Hauth out. unfold out, order_query, find_order.
  rewrite Hauth. rewrite run_await. cbn [handle].
  pose proof (truthy_id_some _ _ Hauth) as Hid.
  destruct (find _ (orders s)) as [o |].
  - destruct (selects_user (info ctx)); cbn [negb].
    + destruct (user ctx) as [actor |].
      * rewrite Hid. cbn [strict_eq].
        assert (Hshown :
          (selects_user_id (info ctx) = true /\ order_user o = uid)
          \/ In "ADMIN" (user_permissions actor)
          <-> (negb (selects_user_id (info ctx) && String.eqb (order_user o) uid)
               && negb (includes (user_permissions actor) "ADMIN"))%bool = false).
        { rewrite <- includes_In, <- String.eqb_eq.
          destruct (selects_user_id (info ctx));
            destruct (String.eqb (order_user o) uid);
            destruct (includes (user_permissions actor) "ADMIN");
            cbn; intuition discriminate. }
        destruct (negb (selects_user_id (info ctx) && String.eqb (order_user o) uid)
                  && negb (includes (user_permissions actor) "ADMIN"))%bool.
        -- rewrite run_throw. cbn [after result final].
           split; [reflexivity |]. split; [discriminate |].
           split; [discriminate |].
           intros o' a' Ho _ Ha.
           injection Ho as <-. injection Ha as <-.
           split; intro H.
           ++ apply Hshown in H. discriminate H.
           ++ reflexivity.
        -- rewrite run_ret. cbn [after result final].
           split; [reflexivity |]. split; [discriminate |].
           split; [discriminate |].
           intros o' a' Ho _ Ha.
           injection Ho as <-. injection Ha as <-.
           split; intro H.
           ++ reflexivity.
           ++ exfalso. apply H. apply Hshown. reflexivity.
      * rewrite run_throw. cbn [after result final].
        split; [reflexivity |]. split; [discriminate |].
        split; [discriminate |].
        intros o' a' _ _ H. discriminate H.
    + rewrite run_throw. cbn [after result final].
      split; [reflexivity |]. split; [discriminate |].
      split; [reflexivity |].
      intros o' a' _ H. discriminate H.
  - rewrite run_throw. cbn [after result final].
    split; [reflexivity |]. split; [reflexivity |].
    split; [intros o' H; discriminate H |].
    intros o' a' H. discriminate H.
Qed.

Lemma order_query_owner_or_admin_witness :
  let W := Sample.world 0 Sample.captures in
  let ordered :=
    final (run W (createOrder "tok_visa" (Sample.session Sample.alice)) Sample.shop) in
  let order := order_for W Sample.shop "u1" [(Sample.shoes, 2); (Sample.socks, 1)]
                         (mkCharge "ch_tok_visa" 2500) in
  let without_user := mkRequest (Some "u1") (Some Sample.alice)
                                (mkInfo true true false false) in
  result (run W (order_query "nu1u2u3i1i2i3c1c2c3" (Sample.session Sample.bob)) ordered)
  = inr order
  /\ result (run W (order_query "nu1u2u3i1i2i3c1c2c3" (Sample.session Sample.carol))
                 ordered)
     = inl (Error "You don't have permission")
  /\ result (run W (order_query "nu1u2u3i1i2i3c1c2c3" without_user) ordered)
     = inl TypeError.
Proof.
  intros W ordered order without_user. split; [| split].
  - destruct (order_query_owner_or_admin W ordered "nu1u2u3i1i2i3c1c2c3"
                (Sample.session Sample.bob) "u2" eq_refl) as [_ [_ [_ H]]].
    destruct (H order Sample.bob eq_refl eq_refl eq_refl) as [Hyes _].
    apply Hyes. right. simpl. auto.
  - destruct (order_query_owner_or_admin W ordered "nu1u2u3i1i2i3c1c2c3"
                (Sample.session Sample.carol) "u3" eq_refl) as [_ [_ [_ H]]].
    destruct (H order Sample.carol eq_refl eq_refl eq_refl) as [_ Hno].
    apply Hno. intros [[_ E] | [E | []]]; discriminate E.
  - destruct (order_query_owner_or_admin W ordered "nu1u2u3i1i2i3c1c2c3"
                without_user "u1" eq_refl) as [_ [_ [H _]]].
    apply (H order); reflexivity.
Defined.

(** ** Two requests at once, two requests in a row *)

(** X20: [addToCart] is a query followed by a write, and another request
    can come between the two.  When another [addToCart] for the same pair
    runs to its end after the query of this one has found no row, both
    create a row: the pair has two rows of quantity 1, and the store no
    longer has at most one row per user and item. *)
Theorem addToCart_twice_at_once_makes_two_rows :
  forall env env' s id ctx uid,
    truthy_id (userId ctx) = Some uid ->
    rows_for uid id s = [] ->
    is_some (find_user (where_id uid) s) = true ->
    is_some (find_item id s) = true ->
    let other := fun s0 => final (run env' (addToCart id ctx) s0) in
    let out := exec env [(fun s0 => s0); other] (addToCart id ctx) s in
    rows_for uid id (final out)
    = [mkCartItem (new_id env' s) 1 id uid;
       mkCartItem (new_id env (other s)) 1 id uid]
    /\ ~ one_row_per_pair (final out).
Proof.
  intros env env' s id ctx uid Hauth Hnone Hu Hi other out.
  assert (Hother : other s
                   = with_cartItems s
                       (cartItems s ++ [mkCartItem (new_id env' s) 1 id uid])).
  { unfold other. rewrite (addToCart_creates env' s id ctx uid Hauth Hnone Hu Hi).
    reflexivity. }
  assert (Hrows : rows_for uid id (final out)
                  = [mkCartItem (new_id env' s) 1 id uid;
                     mkCartItem (new_id env (other s)) 1 id uid]).
  { unfold out, addToCart. rewrite Hauth.
    rewrite exec_await. cbn [handle meanwhile tl].
    unfold rows_for in Hnone. rewrite Hnone.
    rewrite exec_await. cbn [handle meanwhile tl].
    assert (Hstill : (is_some (find_user (where_id uid) (other s))
                      && is_some (find_item id (other s)))%bool = true).
    { rewrite Hother. unfold find_user, find_item, with_cartItems.
      cbn [users items]. unfold find_user in Hu. unfold find_item in Hi.
      rewrite Hu, Hi. reflexivity. }
    rewrite Hstill. cbn [exec after final].
    rewrite rows_for_created. rewrite Hother at 1.
    rewrite rows_for_created. unfold rows_for. rewrite Hnone. reflexivity. }
  split; [exact Hrows |].
  intro Hinv. specialize (Hinv uid id). rewrite Hrows in Hinv.
  cbn in Hinv. lia.
Qed.

Lemma addToCart_twice_at_once_makes_two_rows_witness :
  let W := Sample.world 0 Sample.captures in
  let ctx := Sample.session Sample.alice in
  let other := fun s0 => final (run W (addToCart "i3" ctx) s0) in
  List.length
    (rows_for "u1" "i3"
       (final (exec W [(fun s0 => s0); other] (addToCart "i3" ctx) Sample.shop)))
  = 2%nat.
Proof.
  intros W ctx other.
  exact (f_equal (@List.length CartItem)
           (proj1 (addToCart_twice_at_once_makes_two_rows
                     W W Sample.shop "i3" ctx "u1" eq_refl eq_refl eq_refl eq_refl))).
Defined.

Lemma requestReset_final_at :
  forall FRONTEND_URL makeANiceEmail env s email ctx pre u post,
    users s = (pre ++ u :: post)%list ->
    (forall x, In x pre -> user_matches (where_email email) x = false) ->
    user_matches (where_email email) u = true ->
    final (run env (requestReset FRONTEND_URL makeANiceEmail email ctx) s)
    = with_users s (pre ++ holding_token u (random_hex env 20)
                                         (clock env + 3600000) :: post).
Proof.
  intros F mk env s email ctx pre u post Hl Hpre Hm. unfold requestReset.
  rewrite run_await. cbn [handle]. unfold find_user. rewrite Hl.
  rewrite (find_skip _ _ pre _ Hpre). cbn [find]. rewrite Hm.
  rewrite run_await. cbn [handle].
  rewrite run_await. cbn [handle].
  rewrite run_await. cbn [handle].
  rewrite Hl. rewrite (update_first_at _ _ _ pre u post Hpre Hm).
  rewrite run_await. cbn [handle].
  destruct (mail_accepted env (user_email u)); reflexivity.
Qed.

(** X21: a second [requestReset] for the same email replaces the token of
    the first.  When the second random token differs from the first (and
    nobody held the first before), the user holds the second token with
    the second expiry, and [resetPassword] with the first token throws
    "This token is either invalid or expired!" at any time. *)
Theorem second_requestReset_replaces_the_token :
  forall FRONTEND_URL makeANiceEmail APP_SECRET env env' env'' s email
         ctx ctx' ctx'' u password,
    find_user (where_email email) s = Some u ->
    nobody_holds (random_hex env 20) s ->
    random_hex env' 20 <> random_hex env 20 ->
    let first := final (run env (requestReset FRONTEND_URL makeANiceEmail email ctx) s) in
    let second :=
      final (run env' (requestReset FRONTEND_URL makeANiceEmail email ctx') first) in
    find_user (where_email email) second
    = Some (holding_token u (random_hex env' 20) (clock env' + 3600000))
    /\ run env'' (resetPassword APP_SECRET
                    (mkResetArgs (random_hex env 20) password password) ctx'')
           second
       = mkOutcome (inl (Error "This token is either invalid or expired!")) second
                   [event Date_now;
                    event (db_query_users_reset (random_hex env 20)
                                                (clock env'' - 3600000))].
Proof.
  intros F mk SECRET env env' env'' s email ctx ctx' ctx'' u password
         Hu Hnobody Hdiff first second.
  destruct (requestReset_final F mk env s email ctx u Hu)
    as [pre [post [Hl [Hpre [He [Hfirst _]]]]]].
  fold first in Hfirst.
  assert (Hsecond : second
            = with_users s (pre ++ holding_token u (random_hex env' 20)
                                                 (clock env' + 3600000) :: post)).
  { unfold second.
    rewrite (requestReset_final_at F mk env' first email ctx' pre
               (holding_token u (random_hex env 20) (clock env + 3600000)) post).
    - rewrite Hfirst. reflexivity.
    - rewrite Hfirst. reflexivity.
    - exact Hpre.
    - cbn [user_matches holding_token user_email]. rewrite He.
      apply String.eqb_refl. }
  split.
  - rewrite Hsecond. unfold find_user, with_users. cbn [users].
    rewrite (find_skip _ _ pre _ Hpre).
    cbn [find user_matches holding_token user_email].
    rewrite He, String.eqb_refl. reflexivity.
  - apply resetPassword_no_match_run.
    intros v Hv. apply reset_matches_other_token. revert v Hv.
    rewrite Hsecond. intros v Hv. unfold with_users in Hv. cbn [users] in Hv.
    apply in_app_or in Hv. destruct Hv as [Hv | [<- | Hv]].
    + apply Hnobody. rewrite Hl. apply in_or_app. left. exact Hv.
    + cbn [holding_token user_resetToken]. intros [= E]. apply Hdiff. exact E.
    + apply Hnobody. rewrite Hl. apply in_or_app. right. right. exact Hv.
Qed.

Lemma second_requestReset_replaces_the_token_witness :
  let W := fun now token =>
    mkEnv Sample.next_id now Sample.captures (fun plain _ => plain)
          (fun _ => token) (fun _ => true) (fun uid _ => uid)
          (fun secret => secret) in
  let request := requestReset "https://shop.io" (fun text => text)
                              "carol@shop.io" Sample.anonymous in
  let second := final (run (W 500 "bbbb") request
                           (final (run (W 0 "aaaa") request Sample.shop))) in
  find_user (where_email "carol@shop.io") second
  = Some (holding_token Sample.carol "bbbb" 3600500)
  /\ result (run (W 600 "cccc")
                 (resetPassword "secret" (mkResetArgs "aaaa" "pw2" "pw2")
                                Sample.anonymous) second)
     = inl (Error "This token is either invalid or expired!").
Proof.
  intros W request second.
  destruct (second_requestReset_replaces_the_token
              "https://shop.io" (fun text => text) "secret"
              (W 0 "aaaa") (W 500 "bbbb") (W 600 "cccc") Sample.shop "carol@shop.io"
              Sample.anonymous Sample.anonymous Sample.anonymous Sample.carol "pw2"
              eq_refl) as [Hheld Hrefused].
  - intros v Hv. simpl in Hv.
    destruct Hv as [<- | [<- | [<- | []]]]; discriminate.
  - cbn. intro E. discriminate E.
  - split; [exact Hheld |].
    exact (f_equal result Hrefused).
Defined.

(** ** The session's user *)

(** X22: the account [signup] creates is the one [me] returns for a
    session with its id (the store naming the new user with an unused
    id); [me] changes nothing. *)
Theorem signup_then_me :
  forall APP_SECRET env env' s args ctx ctx' u,
    find_user (where_email (toLowerCase (su_email args))) s = None ->
    unique_new_user_id env s ->
    result (run env (signup APP_SECRET args ctx) s) = inr u ->
    truthy_id (userId ctx') = Some (user_id u) ->
    let registered := final (run env (signup APP_SECRET args ctx) s) in
    run env' (me ctx') registered
    = mkOutcome (inr (Some u)) registered
                [event (db_query_user (where_id (user_id u)))].
Proof.
  intros SECRET env env' s args ctx ctx' u Hfree Hfresh Hres Hauth registered.
  pose proof (signup_run SECRET env s args ctx Hfree) as Hrun.
  cbv zeta in Hrun.
  pose proof (f_equal result Hrun) as Hr. pose proof (f_equal final Hrun) as Hf.
  cbn [result final] in Hr, Hf. clear Hrun.
  rewrite Hr in Hres. injection Hres as <-.
  unfold registered. rewrite Hf.
  unfold me. rewrite Hauth. rewrite run_await. cbn [handle].
  unfold find_user, with_users at 1. cbn [users user_id].
  rewrite (find_skip _ _ (users s)).
  - cbn [find user_matches user_id]. rewrite String.eqb_refl. reflexivity.
  - intros x Hx. cbn [user_matches].
    apply (fresh_not_matching _ user_id (users s) (new_id env s) Hfresh x Hx).
Qed.

Lemma signup_then_me_witness :
  let W := Sample.world 0 Sample.captures in
  let dave := mkUser "nu1u2u3i1i2i3c1c2c3" "Dave" "dave@shop.io" "$2a$pw" ["USER"]
                     None None in
  result (run W (me (Sample.session dave))
              (final (run W (signup "secret" (mkSignupArgs "Dave@Shop.io" "Dave" "pw")
                                    Sample.anonymous) Sample.shop)))
  = inr (Some dave).
Proof.
  intros W dave.
  refine (f_equal result
            (signup_then_me "secret" W W Sample.shop
               (mkSignupArgs "Dave@Shop.io" "Dave" "pw")
               Sample.anonymous (Sample.session dave) dave
               eq_refl _ eq_refl eq_refl)).
  unfold unique_new_user_id. simpl. intros [H | [H | [H | []]]]; discriminate H.
Defined.

(** X23: [updatePermissions] decides on the user it reads from the store
    under the session's [userId], as the store returns it for the client's
    selection, not on [ctx.request.user].  When the selection has
    [permissions] and that user passes [hasPermission] for ADMIN or
    PERMISSIONUPDATE (any of the two, as the spec has it), the permissions
    of the first user with the target id become the list given, nothing
    else of that user changes and no user is added or removed; when the
    user does not pass, the call fails and the store stays as it is.  When
    the selection has no [permissions], [hasPermission] reads them off
    [undefined]: the call throws a [TypeError] and the store stays, also
    for an ADMIN. *)
Theorem updatePermissions_replaces_the_list :
  forall env s permissions target ctx uid current,
    truthy_id (userId ctx) = Some uid ->
    find_user (where_id uid) s = Some current ->
    let out := run env (updatePermissions permissions target ctx) s in
    let allowed :=
      existsb (includes ["ADMIN"; "PERMISSIONUPDATE"]) (user_permissions current) in
    (selects_permissions (info ctx) = true -> allowed = true ->
     forall t, find_user (where_id target) s = Some t ->
       result out = inr (with_permissions t permissions)
       /\ find_user (where_id target) (final out)
          = Some (with_permissions t permissions)
       /\ map user_id (users (final out)) = map user_id (users s)
       /\ items (final out) = items s
       /\ cartItems (final out) = cartItems s
       /\ orders (final out) = orders s)
    /\ (selects_permissions (info ctx) = true -> allowed = false ->
        (exists e, result out = inl e) /\ final out = s /\ no_store_write out)
    /\ (selects_permissions (info ctx) = false ->
        result out = inl TypeError /\ final out = s /\ no_store_write out).
Proof.
  intros env s permissions target ctx uid current Hauth Hcur out allowed.
  unfold out, updatePermissions. rewrite Hauth.
  rewrite run_await. cbn [handle]. rewrite Hcur.
  destruct (selects_permissions (info ctx)).
  - unfold hasPermission. fold allowed.
    destruct allowed; (split; [| split]); try discriminate.
    + intros _ _ t Ht. cbn [bind].
      rewrite run_await. cbn [handle].
      unfold find_user in Ht.
      destruct (find_split _ _ _ _ Ht) as [pre [post [Hl [Hpre Hm]]]].
      rewrite Hl. rewrite (update_first_at _ _ _ pre t post Hpre Hm).
      rewrite run_ret. cbn [after result final]. unfold with_users.
      cbn [users items cartItems orders].
      split; [reflexivity |]. split.
      * unfold find_user. cbn [users]. rewrite (find_skip _ _ pre _ Hpre).
        cbn [find]. cbn [user_matches] in Hm |- *.
        cbn [apply_user_data user_id]. rewrite Hm. reflexivity.
      * rewrite !map_app. cbn [map apply_user_data user_id].
        repeat split; reflexivity.
    + intros _ _. cbn [bind]. rewrite run_throw.
      cbn [after result final]. unfold no_store_write.
      split; [eauto |]. split; reflexivity.
  - split; [discriminate |]. split; [discriminate |].
    intros _. cbn [bind]. rewrite run_throw.
    cbn [after result final]. unfold no_store_write.
    split; [reflexivity |]. split; reflexivity.
Qed.

Lemma updatePermissions_replaces_the_list_witness :
  let W := Sample.world 0 Sample.captures in
  let without_permissions :=
    mkRequest (Some "u2") (Some Sample.bob) (mkInfo true false true true) in
  result (run W (updatePermissions ["USER"; "ITEMDELETE"] "u3"
                                   (Sample.session Sample.bob)) Sample.shop)
  = inr (with_permissions Sample.carol ["USER"; "ITEMDELETE"])
  /\ final (run W (updatePermissions ["USER"; "ADMIN"] "u1"
                                     (Sample.session Sample.alice)) Sample.shop)
     = Sample.shop
  /\ result (run W (updatePermissions ["USER"; "ITEMDELETE"] "u3"
                                      without_permissions) Sample.shop)
     = inl TypeError.
Proof.
  intros W without_permissions. split; [| split].
  - destruct (updatePermissions_replaces_the_list
                W Sample.shop ["USER"; "ITEMDELETE"] "u3"
                (Sample.session Sample.bob) "u2" Sample.bob eq_refl eq_refl)
      as [Hyes _].
    exact (proj1 (Hyes eq_refl eq_refl Sample.carol eq_refl)).
  - destruct (updatePermissions_replaces_the_list
                W Sample.shop ["USER"; "ADMIN"] "u1"
                (Sample.session Sample.alice) "u1" Sample.alice eq_refl eq_refl)
      as [_ [Hno _]].
    exact (proj1 (proj2 (Hno eq_refl eq_refl))).
  - destruct (updatePermissions_replaces_the_list
                W Sample.shop ["USER"; "ITEMDELETE"] "u3"
                without_permissions "u2" Sample.bob eq_refl eq_refl)
      as [_ [_ Hundefined]].
    exact (proj1 (Hundefined eq_refl)).
Defined.
